(** * Fusion ensembles (torchensemble/fusion.py)

    A shallow embedding of [FusionClassifier] and [FusionRegressor] and the
    properties of their forward pass, training stage and evaluation stage.

    Reading of the data:
    - a float (a tensor entry, the learning rate, a loss) is a real number,
      so that rounding, infinities and nan are outside the model;
    - a 2-D tensor is the list of its rows; a batch of integer class
      targets is a list of integers;
    - [n_estimators] and [n_outputs] are natural numbers;
    - an object that the Python code mutates (the ensemble, its estimators,
      the console) lives in an explicit state that every operation threads;
      an exception leaves the state as it was when it was raised. *)

From Stdlib Require Import String.
From Stdlib Require Import Reals List ZArith Lia Lra Bool Arith.
Import ListNotations.

Set Implicit Arguments.

Local Open Scope R_scope.

(** ** Exceptions and the state-and-exception monad *)

Inductive error : Type :=
| ValueError           (* invalid hyper-parameter *)
| NotImplementedError  (* unknown optimizer kind *)
| ShapeMismatch        (* RuntimeError: tensor shapes disagree *)
| IndexError           (* reduction over no element, class index out of range *)
| ZeroDivisionError
| EstimatorError.      (* whatever a base estimator raises itself *)

Inductive res (A : Type) : Type :=
| Ok (a : A)
| Err (e : error).

Arguments Ok {A} a.
Arguments Err {A} e.

Definition res_map {A B} (f : A -> B) (r : res A) : res B :=
  match r with
  | Ok a => Ok (f a)
  | Err e => Err e
  end.

Definition res_bind {A B} (r : res A) (k : A -> res B) : res B :=
  match r with
  | Ok a => k a
  | Err e => Err e
  end.

(** A computation over a state [S]: the outcome and the state it leaves,
    also when the outcome is an exception. *)
Definition M (S A : Type) : Type := S -> res A * S.

Definition ret {S A} (a : A) : M S A := fun s => (Ok a, s).

Definition raise {S A} (e : error) : M S A := fun s => (Err e, s).

Definition bind {S A B} (m : M S A) (k : A -> M S B) : M S B :=
  fun s =>
    match m s with
    | (Ok a, s') => k a s'
    | (Err e, s') => (Err e, s')
    end.

Definition get {S} : M S S := fun s => (Ok s, s).

Definition modify {S} (f : S -> S) : M S unit := fun s => (Ok tt, f s).

Definition lift {S A} (r : res A) : M S A := fun s => (r, s).

Declare Scope monad_scope.
Delimit Scope monad_scope with monad.
Notation "x <- m ;; k" := (bind m (fun x => k))
  (at level 61, m at next level, right associativity) : monad_scope.
Notation "m ;; k" := (bind m (fun _ => k))
  (at level 61, right associativity) : monad_scope.
Local Open Scope monad_scope.

(** [for x in xs: acc = body(x, acc)], stopping at the first exception. *)
Fixpoint for_each {S A B} (xs : list A) (body : A -> B -> M S B) (acc : B)
  : M S B :=
  match xs with
  | [] => ret acc
  | x :: xs' => acc' <- body x acc ;; for_each xs' body acc'
  end.

(** [enumerate(xs)] *)
Definition enumerate {A} (xs : list A) : list (nat * A) :=
  combine (seq 0 (length xs)) xs.

(** ** Tensors *)

Definition Tensor : Type := list (list R).

(** [torch.zeros(rows, cols)] *)
Definition zeros (rows cols : nat) : Tensor := repeat (repeat 0 cols) rows.

(** Pointwise combination of two lists of the same length. *)
Fixpoint map2_exact {A B C} (f : A -> B -> option C) (a : list A) (b : list B)
  : option (list C) :=
  match a, b with
  | [], [] => Some []
  | x :: a', y :: b' =>
      match f x y, map2_exact f a' b' with
      | Some z, Some c => Some (z :: c)
      | _, _ => None
      end
  | _, _ => None
  end.

Definition row_map2 (f : R -> R -> R) : list R -> list R -> option (list R) :=
  map2_exact (fun x y => Some (f x y)).

Definition tensor_map2 (f : R -> R -> R) : Tensor -> Tensor -> option Tensor :=
  map2_exact (row_map2 f).

(** [a += b] on tensors of one shape.  Shapes that disagree are the
    shape-mismatch failure of the numeric library (the broadcasting of
    dimensions of size one is left out: a base estimator returns a tensor
    of shape (batch size, n_outputs)). *)
Definition iadd (a b : Tensor) : res Tensor :=
  match tensor_map2 Rplus a b with
  | Some c => Ok c
  | None => Err ShapeMismatch
  end.

(** [t / n] for a Python integer [n] *)
Definition tdiv (t : Tensor) (n : nat) : Tensor :=
  map (map (fun x => x / INR n)) t.

Definition rsum (l : list R) : R := fold_right Rplus 0 l.

Definition tsum (t : Tensor) : R := rsum (map rsum t).

Definition numel (t : Tensor) : nat := fold_right Nat.add 0%nat (map (@length R) t).

(** [F.softmax(t, dim=1)]: each row is exponentiated and normalised. *)
Definition softmax_row (row : list R) : list R :=
  map (fun x => exp x / rsum (map exp row)) row.

Definition softmax (t : Tensor) : Tensor := map softmax_row t.

(** Index of the first maximal entry of a row, as [t.max(1)[1]] gives it. *)
Fixpoint argmax_from (best_i : nat) (best : R) (i : nat) (l : list R) : nat :=
  match l with
  | [] => best_i
  | x :: l' =>
      if Rlt_dec best x
      then argmax_from i x (S i) l'
      else argmax_from best_i best (S i) l'
  end.

Definition argmax (row : list R) : res nat :=
  match row with
  | [] => Err IndexError
  | x :: l => Ok (argmax_from 0 x 1 l)
  end.

Fixpoint res_all {A} (l : list (res A)) : res (list A) :=
  match l with
  | [] => Ok []
  | r :: l' =>
      match r with
      | Err e => Err e
      | Ok a => res_map (cons a) (res_all l')
      end
  end.

(** [output.data.max(1)[1]] *)
Definition max1_indices (output : Tensor) : res (list nat) :=
  res_all (map argmax output).

(** [pred.eq(target.view(-1).data).sum()] for predicted indices and integer
    class targets. *)
Definition eq_sum (pred : list nat) (target : list Z) : res nat :=
  match map2_exact (fun p t => Some (Z.eqb (Z.of_nat p) t)) pred target with
  | Some hits => Ok (length (filter (fun b => b) hits))
  | None => Err ShapeMismatch
  end.

(** The two source lines together: the number of rows of [output] whose
    arg-max is the target class. *)
Definition count_correct (output : Tensor) (target : list Z) : res nat :=
  res_bind (max1_indices output) (fun pred => eq_sum pred target).

(** [nn.MSELoss()(output, target)]: the mean of the squared differences over
    all entries, for an output and a target of one shape.  Shapes that
    disagree are the shape-mismatch failure here (the broadcasting of
    dimensions of size one is left out). *)
Definition mse_loss (output target : Tensor) : res R :=
  match tensor_map2 (fun x y => (x - y) * (x - y)) output target with
  | Some sq => Ok (tsum sq / INR (numel sq))
  | None => Err ShapeMismatch
  end.

(** [nn.CrossEntropyLoss()(output, target)] with its defaults: the mean,
    over the rows whose target is not [ignore_index], of minus the
    logarithm of the softmax entry of the target class.  A target equal to
    [ignore_index] adds no term and is left out of the mean; any other
    target that is not a class index raises. *)
Definition ignore_index : Z := (-100)%Z.

Definition nll_row (row : list R) (t : Z) : option (list R) :=
  if (t =? ignore_index)%Z then Some []
  else if ((0 <=? t)%Z && (t <? Z.of_nat (length row))%Z)%bool
  then Some [- ln (nth (Z.to_nat t) (softmax_row row) 0)]
  else None.

Definition cross_entropy (output : Tensor) (target : list Z) : res R :=
  if (length output =? length target)%nat then
    match map2_exact nll_row output target with
    | Some terms =>
        let losses := concat terms in
        Ok (rsum losses / INR (length losses))
    | None => Err IndexError
    end
  else Err ShapeMismatch.

(** ** Data loaders

    The two classes read a [torch.utils.data.DataLoader] through three
    operations only: iteration, [len(loader)] and [len(loader.dataset)].
    The loader is the one PyTorch builds over a map-style dataset with the
    sequential sampler: [BatchSampler] fills a batch until it holds
    [batch_size] indices, and the batch left over at the end is yielded
    unless [drop_last] is set. *)

Record DataLoader (X Y : Type) : Type := mkDataLoader {
  dataset : list (X * Y);
  batch_size : nat;
  drop_last : bool
}.

Fixpoint batch_sampler {A} (size : nat) (drop : bool) (batch : list A)
  (sampler : list A) : list (list A) :=
  match sampler with
  | [] =>
      if ((0 <? length batch)%nat && negb drop)%bool then [batch] else []
  | idx :: rest =>
      let batch' := batch ++ [idx] in
      if (length batch' =? size)%nat
      then batch' :: batch_sampler size drop [] rest
      else batch_sampler size drop batch' rest
  end.

Definition batches {X Y} (loader : DataLoader X Y) : list (list (X * Y)) :=
  batch_sampler (batch_size loader) (drop_last loader) [] (dataset loader).

(** The default collate function: the inputs stacked, the targets stacked. *)
Definition collate {X Y} (batch : list (X * Y)) : list X * list Y :=
  (map fst batch, map snd batch).

(** What [for (data, target) in loader] goes through. *)
Definition iter {X Y} (loader : DataLoader X Y) : list (list X * list Y) :=
  map collate (batches loader).

(** [len(loader)]: the number of batches. *)
Definition len {X Y} (loader : DataLoader X Y) : nat := length (batches loader).

(** ** Base estimators

    A base estimator is an [nn.Module] of the caller's: calling it on a
    batch gives a tensor or raises, and may change the module itself
    (buffers, random state); [train(mode)] sets its train/eval flag. *)

Class Estimator (E : Type) : Type := {
  call : E -> Tensor -> res Tensor * E;
  train : bool -> E -> E;
  is_training : E -> bool
}.

(** What PyTorch documents of a module in evaluation mode: [train(mode)]
    sets the flag and setting it twice is setting it once, and a forward
    pass in evaluation mode applies no stochastic operation and updates no
    buffer. *)
Class EvalMode (E : Type) `{Estimator E} : Prop := {
  is_training_train : forall b e, is_training (train b e) = b;
  train_train : forall b e, train b (train b e) = train b e;
  call_eval : forall e X, is_training e = false -> snd (call e X) = e
}.

Arguments EvalMode E {_}.

(** ** The ensemble object and what surrounds it *)

Record Ensemble (E : Type) : Type := mkEnsemble {
  n_estimators : nat;
  device : string;
  n_outputs : nat;
  estimators_ : list E;
  training : bool
}.

(** One status line of the training loop, before formatting. *)
Record LogLine : Type := mkLogLine {
  log_epoch : nat;
  log_batch : nat;
  log_loss : R;
  log_correct : option (nat * nat)   (* correct / batch size, classifier only *)
}.

(** The mutable world of a run: the ensemble [self], how many times the
    estimator factory has been invoked, and the console. *)
Record Runtime (E : Type) : Type := mkRuntime {
  self : Ensemble E;
  factory_calls : nat;
  stdout : list LogLine
}.

Section BaseModule.

Context {E : Type} `{Estimator E}.

(** The estimator factory: [base_estimator k] is the instance its
    [k]-th invocation returns. *)
Variable base_estimator : nat -> E.

Definition with_self (f : Ensemble E -> Ensemble E) (rt : Runtime E)
  : Runtime E :=
  mkRuntime (f (self rt)) (factory_calls rt) (stdout rt).

Definition set_estimators (ests : list E) (m : Ensemble E) : Ensemble E :=
  mkEnsemble (n_estimators m) (device m) (n_outputs m) ests (training m).

Definition set_n_outputs (n : nat) (m : Ensemble E) : Ensemble E :=
  mkEnsemble (n_estimators m) (device m) n (estimators_ m) (training m).

(** [nn.Module.train(mode)]: the flag of the module and of every child. *)
Definition set_mode (mode : bool) (m : Ensemble E) : Ensemble E :=
  mkEnsemble (n_estimators m) (device m) (n_outputs m)
             (map (train mode) (estimators_ m)) mode.

Definition print (line : LogLine) : M (Runtime E) unit :=
  modify (fun rt =>
    mkRuntime (self rt) (factory_calls rt) (stdout rt ++ [line])).

(** Modelled from the spec: [BaseModule.__init__], which is not in the
    sources; the ensemble starts with the given [n_estimators] and device
    and an empty collection of estimators ("empty until fit").  The width
    [n_outputs] is inferred by [fit]; 0 stands for it until then.  A new
    [nn.Module] is in train mode. *)
Definition init (n : nat) (dev : string) : Ensemble E :=
  mkEnsemble n dev 0 [] true.

(** Modelled from the spec: [BaseModule._make_estimator], which is not in
    the sources; one invocation of the zero-argument estimator factory,
    returning a new instance. *)
Definition _make_estimator : M (Runtime E) E :=
  fun rt =>
    (Ok (base_estimator (factory_calls rt)),
     mkRuntime (self rt) (S (factory_calls rt)) (stdout rt)).

(** Modelled from the spec: [BaseModule._validate_parameters], which is
    not in the sources; learning rate > 0, weight decay >= 0, epochs > 0,
    log interval > 0, raising on the first invalid value. *)
Definition _validate_parameters (lr weight_decay : R)
  (epochs log_interval : Z) : M (Runtime E) unit :=
  if Rlt_dec 0 lr then
    if Rle_dec 0 weight_decay then
      if (0 <? epochs)%Z then
        if (0 <? log_interval)%Z then ret tt
        else raise ValueError
      else raise ValueError
    else raise ValueError
  else raise ValueError.

(** [for _ in range(n): self.estimators_.append(self._make_estimator())] *)
Fixpoint make_estimators (n : nat) : M (Runtime E) unit :=
  match n with
  | O => ret tt
  | S n' =>
      e <- _make_estimator ;;
      modify (with_self (fun m => set_estimators (estimators_ m ++ [e]) m)) ;;
      make_estimators n'
  end.

(** The loop of [FusionClassifier._forward] and of
    [FusionRegressor.forward]:
    [for estimator in self.estimators_: acc += estimator(X) / n].
    It gives the accumulator, or the exception of the first estimator
    that fails, and the estimators as the calls left them. *)
Fixpoint average_loop (n : nat) (X : Tensor) (ests : list E) (acc : Tensor)
  : res Tensor * list E :=
  match ests with
  | [] => (Ok acc, [])
  | estimator :: rest =>
      let (out, estimator') := call estimator X in
      match res_bind out (fun o => iadd acc (tdiv o n)) with
      | Err e => (Err e, estimator' :: rest)
      | Ok acc' =>
          let (r, rest') := average_loop n X rest acc' in
          (r, estimator' :: rest')
      end
  end.

End BaseModule.

(** [for i, e in enumerate(ests)] as a map *)
Definition mapi {A B} (f : nat -> A -> B) (l : list A) : list B :=
  map (fun p => f (fst p) (snd p)) (enumerate l).

(** The optimizer of [utils.set_optimizer], which is not in the sources,
    through what the training loop asks of it: [zero_grad(); backward();
    step()] on the loss of one batch updates the parameters of every
    estimator in place and the optimizer's own state.  [Y] is the type of a
    batch of targets. *)
Class Optimizer (E Y O : Type) : Type := {
  set_optimizer : Ensemble E -> string -> R -> R -> res O;
  step_estimator : O -> list E -> Tensor -> Y -> nat -> E -> E;
  step_optimizer : O -> list E -> Tensor -> Y -> O
}.

(** ** FusionClassifier *)

Module FusionClassifier.
Section Classifier.

Context {E O : Type} `{Estimator E} `{Optimizer E (list Z) O}.

Variable base_estimator : nat -> E.

(** [BaseModule._decide_n_outputs], not in the sources. *)
Variable _decide_n_outputs : DataLoader (list R) Z -> bool -> res nat.

Definition _forward (X : Tensor) : M (Runtime E) Tensor :=
  fun rt =>
    let batch_size := length X in
    let proba := zeros batch_size (n_outputs (self rt)) in
    let (r, ests) :=
      average_loop (n_estimators (self rt)) X (estimators_ (self rt)) proba
    in (r, with_self (set_estimators ests) rt).

Definition forward (X : Tensor) : M (Runtime E) Tensor :=
  proba <- _forward X ;;
  ret (softmax proba).

(** The body of the training loop for one batch. *)
Definition fit_batch (epoch : nat) (log_interval : Z)
  (b : nat * (Tensor * list Z)) (optimizer : O) : M (Runtime E) O :=
  let batch_idx := fst b in
  let data := fst (snd b) in
  let target := snd (snd b) in
  let batch_size := length data in
  output <- _forward data ;;
  loss <- lift (cross_entropy output target) ;;
  rt <- get ;;
  let ests := estimators_ (self rt) in
  modify (with_self (set_estimators
    (mapi (step_estimator optimizer ests data target) ests))) ;;
  let optimizer' := step_optimizer optimizer ests data target in
  (if (log_interval =? 0)%Z then raise ZeroDivisionError
   else if (Z.of_nat batch_idx mod log_interval =? 0)%Z then
     correct <- lift (count_correct output target) ;;
     print (mkLogLine epoch batch_idx loss (Some (correct, batch_size)))
   else ret tt) ;;
  ret optimizer'.

Definition fit (train_loader : DataLoader (list R) Z) (lr weight_decay : R)
  (epochs : Z) (optimizer : string) (log_interval : Z)
  : M (Runtime E) unit :=
  rt <- get ;;
  make_estimators base_estimator (n_estimators (self rt)) ;;
  n <- lift (_decide_n_outputs train_loader true) ;;
  modify (with_self (set_n_outputs n)) ;;
  rt <- get ;;
  optimizer <- lift (set_optimizer (self rt) optimizer lr weight_decay) ;;
  modify (with_self (set_mode true)) ;;
  _validate_parameters lr weight_decay epochs log_interval ;;
  for_each (seq 0 (Z.to_nat epochs))
    (fun epoch optimizer =>
       for_each (enumerate (iter train_loader))
                (fit_batch epoch log_interval) optimizer)
    optimizer ;;
  ret tt.

Definition predict_batch (b : nat * (Tensor * list Z)) (correct : nat)
  : M (Runtime E) nat :=
  let data := fst (snd b) in
  let target := snd (snd b) in
  output <- forward data ;;
  hits <- lift (count_correct output target) ;;
  ret (correct + hits)%nat.

Definition predict (test_loader : DataLoader (list R) Z)
  : M (Runtime E) R :=
  modify (with_self (set_mode false)) ;;
  correct <- for_each (enumerate (iter test_loader)) predict_batch 0%nat ;;
  let total := length (dataset test_loader) in
  if (total =? 0)%nat then raise ZeroDivisionError
  else ret (100 * INR correct / INR total).

End Classifier.
End FusionClassifier.

(** ** FusionRegressor *)

Module FusionRegressor.
Section Regressor.

Context {E O : Type} `{Estimator E} `{Optimizer E Tensor O}.

Variable base_estimator : nat -> E.

(** [BaseModule._decide_n_outputs], not in the sources. *)
Variable _decide_n_outputs
  : DataLoader (list R) (list R) -> bool -> res nat.

Definition forward (X : Tensor) : M (Runtime E) Tensor :=
  fun rt =>
    let batch_size := length X in
    let pred := zeros batch_size (n_outputs (self rt)) in
    let (r, ests) :=
      average_loop (n_estimators (self rt)) X (estimators_ (self rt)) pred
    in (r, with_self (set_estimators ests) rt).

(** The body of the training loop for one batch. *)
Definition fit_batch (epoch : nat) (log_interval : Z)
  (b : nat * (Tensor * Tensor)) (optimizer : O) : M (Runtime E) O :=
  let batch_idx := fst b in
  let data := fst (snd b) in
  let target := snd (snd b) in
  output <- forward data ;;
  loss <- lift (mse_loss output target) ;;
  rt <- get ;;
  let ests := estimators_ (self rt) in
  modify (with_self (set_estimators
    (mapi (step_estimator optimizer ests data target) ests))) ;;
  let optimizer' := step_optimizer optimizer ests data target in
  (if (log_interval =? 0)%Z then raise ZeroDivisionError
   else if (Z.of_nat batch_idx mod log_interval =? 0)%Z then
     print (mkLogLine epoch batch_idx loss None)
   else ret tt) ;;
  ret optimizer'.

Definition fit (train_loader : DataLoader (list R) (list R))
  (lr weight_decay : R) (epochs : Z) (optimizer : string)
  (log_interval : Z) : M (Runtime E) unit :=
  rt <- get ;;
  make_estimators base_estimator (n_estimators (self rt)) ;;
  n <- lift (_decide_n_outputs train_loader false) ;;
  modify (with_self (set_n_outputs n)) ;;
  rt <- get ;;
  optimizer <- lift (set_optimizer (self rt) optimizer lr weight_decay) ;;
  modify (with_self (set_mode true)) ;;
  _validate_parameters lr weight_decay epochs log_interval ;;
  for_each (seq 0 (Z.to_nat epochs))
    (fun epoch optimizer =>
       for_each (enumerate (iter train_loader))
                (fit_batch epoch log_interval) optimizer)
    optimizer ;;
  ret tt.

Definition predict_batch (b : nat * (Tensor * Tensor)) (mse : R)
  : M (Runtime E) R :=
  let data := fst (snd b) in
  let target := snd (snd b) in
  output <- forward data ;;
  loss <- lift (mse_loss output target) ;;
  ret (mse + loss).

Definition predict (test_loader : DataLoader (list R) (list R))
  : M (Runtime E) R :=
  modify (with_self (set_mode false)) ;;
  mse <- for_each (enumerate (iter test_loader)) predict_batch 0 ;;
  if (len test_loader =? 0)%nat then raise ZeroDivisionError
  else ret (mse / INR (len test_loader)).

End Regressor.
End FusionRegressor.

(** ** Concrete base estimators, for worked runs

    The estimator of the spec's scenarios: it returns one fixed row for
    every example of the batch and has no trainable behaviour beyond its
    train/eval flag. *)

Module Scenario.

Record ConstEstimator : Type := mkConst {
  value : list R;
  mode : bool
}.

#[export] Instance const_estimator : Estimator ConstEstimator := {
  call e X := (Ok (map (fun _ => value e) X), e);
  train b e := mkConst (value e) b;
  is_training := mode
}.

Definition supported (kind : string) : bool :=
  (String.eqb kind "SGD" || String.eqb kind "Adam"
   || String.eqb kind "RMSprop")%bool.

(** An optimizer over constant estimators: it accepts the three kinds of
    the spec, and its step finds nothing to update. *)
#[export] Instance const_optimizer (Y : Type)
  : Optimizer ConstEstimator Y unit := {
  set_optimizer _ kind _ _ :=
    if supported kind then Ok tt else Err NotImplementedError;
  step_estimator _ _ _ _ _ e := e;
  step_optimizer _ _ _ _ := tt
}.

(** A factory whose every product returns the row [v]. *)
Definition constant_factory (v : list R) (k : nat) : ConstEstimator :=
  mkConst v true.

(** An output-dimension inference that answers [n] for every loader. *)
Definition fixed_outputs {X Y} (n : nat) (_ : DataLoader X Y) (_ : bool)
  : res nat := Ok n.

Definition fresh_runtime (m : Ensemble ConstEstimator)
  : Runtime ConstEstimator := mkRuntime m 0 [].

(** The classification scenario of the spec: three estimators that each
    return [1, 0] for every input, two classes. *)
Definition three_votes : Runtime ConstEstimator :=
  mkRuntime
    (mkEnsemble 3 "cpu" 2 (repeat (mkConst [1; 0] true) 3) true) 3 [].

(** Three test examples; the first and the last are of class 0, the second
    of class [second]. *)
Definition class_loader (second : Z) (drop : bool) : DataLoader (list R) Z :=
  mkDataLoader [([5], 0%Z); ([7], second); ([9], 0%Z)] 2 drop.

(** The regression scenario of the spec: two estimators that return [2.0]
    and [4.0]. *)
Definition two_regressors : Runtime ConstEstimator :=
  mkRuntime
    (mkEnsemble 2 "cpu" 1 [mkConst [2] true; mkConst [4] true] true) 2 [].

(** Three test examples of target [3.0], but for the second, of target
    [second]. *)
Definition value_loader (second : R) : DataLoader (list R) (list R) :=
  mkDataLoader [([5], [3]); ([7], [second]); ([9], [3])] 2 false.

(** A loader over no example. *)
Definition no_example {Y : Type} : DataLoader (list R) Y :=
  mkDataLoader [] 2 false.

(** The two [fit] methods over constant estimators that return [v], with
    an output-dimension inference that answers [n]. *)
Definition classifier_fit_of (v : list R) (n : nat) :=
  FusionClassifier.fit (O := unit) (constant_factory v)
                       (fixed_outputs n).

Definition regressor_fit_of (v : list R) (n : nat) :=
  FusionRegressor.fit (O := unit) (constant_factory v)
                      (fixed_outputs n).

End Scenario.

(** ** Vocabulary of the statements *)

(** [keeps Rel m]: whatever the outcome of [m], the state it leaves is
    related by [Rel] to the state it started from. *)
Definition keeps {S A} (Rel : S -> S -> Prop) (m : M S A) : Prop :=
  forall s, Rel s (snd (m s)).

(** A tensor of [rows] rows of [cols] entries each. *)
Definition has_shape (rows cols : nat) (t : Tensor) : Prop :=
  length t = rows /\ Forall (fun row => length row = cols) t.

(** The entry of row [r] and column [c]. *)
Definition entry (t : Tensor) (r c : nat) : R := nth c (nth r t []) 0.

(** The fields of the ensemble that neither stage is to touch. *)
Definition same_frame {E} (rt rt' : Runtime E) : Prop :=
  n_estimators (self rt') = n_estimators (self rt) /\
  device (self rt') = device (self rt).

(** Nothing constructed and nothing removed: the frame, the number of
    estimators held and the number of factory invocations. *)
Definition same_members {E} (rt rt' : Runtime E) : Prop :=
  same_frame rt rt' /\
  length (estimators_ (self rt')) = length (estimators_ (self rt)) /\
  factory_calls rt' = factory_calls rt.

(** As [same_members], and the inferred width and the train/eval flag of
    the ensemble are kept as well. *)
Definition same_width {E} (rt rt' : Runtime E) : Prop :=
  same_members rt rt' /\
  n_outputs (self rt') = n_outputs (self rt) /\
  training (self rt') = training (self rt).

(** The runtime right after the construction loop of [fit]: [n] fresh
    estimators appended in the order the factory gave them. *)
Definition constructed {E} (base_estimator : nat -> E) (n : nat)
  (rt : Runtime E) : Runtime E :=
  mkRuntime
    (mkEnsemble (n_estimators (self rt)) (device (self rt))
       (n_outputs (self rt))
       (estimators_ (self rt)
          ++ map base_estimator (seq (factory_calls rt) n))
       (training (self rt)))
    (factory_calls rt + n)
    (stdout rt).

(** Every estimator of the ensemble is in evaluation mode. *)
Definition in_eval_mode {E} `{Estimator E} (rt : Runtime E) : Prop :=
  Forall (fun e => is_training e = false) (estimators_ (self rt)).

(** The runtime after [self.eval()]. *)
Definition evaluating {E} `{Estimator E} (rt : Runtime E) : Runtime E :=
  with_self (set_mode false) rt.


(** Matches of one test batch, as [predict] computes them: the count of
    the rows of the classifier's output on the batch whose arg-max is the
    target class. *)
Definition batch_hits {E} `{Estimator E} (rt : Runtime E)
  (b : nat * (Tensor * list Z)) : res nat :=
  res_bind (fst (FusionClassifier.forward (fst (snd b)) rt))
           (fun output => count_correct output (snd (snd b))).

(** Mean squared error of one test batch under the regressor. *)
Definition batch_mse {E} `{Estimator E} (rt : Runtime E)
  (b : nat * (Tensor * Tensor)) : res R :=
  res_bind (fst (FusionRegressor.forward (fst (snd b)) rt))
           (fun output => mse_loss output (snd (snd b))).

(** The hyper-parameters that [_validate_parameters] accepts. *)
Definition valid_parameters (lr weight_decay : R) (epochs log_interval : Z)
  : Prop :=
  0 < lr /\ 0 <= weight_decay /\ (0 < epochs)%Z /\ (0 < log_interval)%Z.

(** The runtime of [fit] when it reaches [_validate_parameters]: the
    estimators constructed, [n_outputs] set to the inferred width [n], the
    ensemble and its estimators switched to train mode. *)
Definition prepared {E} `{Estimator E} (base_estimator : nat -> E) (n : nat)
  (rt : Runtime E) : Runtime E :=
  with_self (set_mode true)
    (with_self (set_n_outputs n)
       (constructed base_estimator (n_estimators (self rt)) rt)).

(** The sizes of the batches a loader yields, in order. *)
Definition batch_sizes {X Y} (loader : DataLoader X Y) : list nat :=
  map (@length (X * Y)) (batches loader).

(** The batches of the loader hold as many examples as its dataset: no
    example is left out of the iteration. *)
Definition covers {X Y} (loader : DataLoader X Y) : Prop :=
  list_sum (batch_sizes loader) = length (dataset loader).

(** ** Vocabulary of the further properties *)

(** Nothing printed and no estimator constructed between two runtimes. *)
Definition quiet {E} (rt rt' : Runtime E) : Prop :=
  stdout rt' = stdout rt /\ factory_calls rt' = factory_calls rt.

(** The uniform distribution over [n] classes on each of [rows] rows. *)
Definition uniform (rows n : nat) : Tensor :=
  repeat (repeat (1 / INR n) n) rows.

(** The two nested loops of [FusionClassifier.fit] and of
    [FusionRegressor.fit], from the optimizer that [set_optimizer] gave. *)
Definition classifier_epochs {E O} `{Estimator E} `{Optimizer E (list Z) O}
  (train_loader : DataLoader (list R) Z) (epochs log_interval : Z)
  (optimizer : O) : M (Runtime E) O :=
  for_each (seq 0 (Z.to_nat epochs))
    (fun epoch optimizer0 =>
       for_each (enumerate (iter train_loader))
                (FusionClassifier.fit_batch epoch log_interval) optimizer0)
    optimizer.

Definition regressor_epochs {E O} `{Estimator E} `{Optimizer E Tensor O}
  (train_loader : DataLoader (list R) (list R)) (epochs log_interval : Z)
  (optimizer : O) : M (Runtime E) O :=
  for_each (seq 0 (Z.to_nat epochs))
    (fun epoch optimizer0 =>
       for_each (enumerate (iter train_loader))
                (FusionRegressor.fit_batch epoch log_interval) optimizer0)
    optimizer.

(** The runtime of [fit] when it calls [set_optimizer]: the estimators
    constructed and [n_outputs] set to the inferred width [n]. *)
Definition inferred {E} (base_estimator : nat -> E) (n : nat)
  (rt : Runtime E) : Runtime E :=
  with_self (set_n_outputs n)
    (constructed base_estimator (n_estimators (self rt)) rt).

(** The epoch and the batch index of a status line. *)
Definition log_key (line : LogLine) : nat * nat :=
  (log_epoch line, log_batch line).

(** [batch_idx % log_interval == 0] *)
Definition reports (log_interval : Z) (batch_idx : nat) : bool :=
  (Z.of_nat batch_idx mod log_interval =? 0)%Z.

(** The epochs and batch indices at which a run of [epochs] epochs over
    [n_batches] batches reports, in the order of the loops. *)
Definition report_keys (epochs : Z) (n_batches : nat) (log_interval : Z)
  : list (nat * nat) :=
  flat_map
    (fun epoch =>
       map (pair epoch) (filter (reports log_interval) (seq 0 n_batches)))
    (seq 0 (Z.to_nat epochs)).

(** The status lines a computation has added to the console satisfy [P]. *)
Definition logged {E} (P : LogLine -> Prop) (rt rt' : Runtime E) : Prop :=
  exists lines, stdout rt' = stdout rt ++ lines /\ Forall P lines.

(** What a status line of the classifier's [fit] over [loader] is: of an
    epoch and a batch of the run, at a batch index that reports, with the
    size of that batch and a count of correct predictions within it. *)
Definition classifier_line {X Y} (loader : DataLoader X Y)
  (epochs log_interval : Z) (line : LogLine) : Prop :=
  (log_epoch line < Z.to_nat epochs)%nat /\
  reports log_interval (log_batch line) = true /\
  exists correct size,
    log_correct line = Some (correct, size) /\
    nth_error (batch_sizes loader) (log_batch line) = Some size /\
    (correct <= size)%nat.

(** What a status line of the regressor's [fit] over [loader] is. *)
Definition regressor_line {X Y} (loader : DataLoader X Y)
  (epochs log_interval : Z) (line : LogLine) : Prop :=
  (log_epoch line < Z.to_nat epochs)%nat /\
  reports log_interval (log_batch line) = true /\
  (log_batch line < len loader)%nat /\
  log_correct line = None.

(** ** Further estimators for worked runs *)

Module Picky.

(** An estimator that accepts inputs of one width only: on a batch whose
    rows all have [width] entries it returns [row] for every example, on
    any other batch it raises. *)
Record PickyEstimator : Type := mkPicky {
  width : nat;
  row : list R;
  flag : bool
}.

#[export] Instance picky_estimator : Estimator PickyEstimator := {
  call e X :=
    (if forallb (fun x => (length x =? width e)%nat) X
     then Ok (map (fun _ => row e) X)
     else Err EstimatorError,
     e);
  train b e := mkPicky (width e) (row e) b;
  is_training := flag
}.

(** Three estimators of two classes; the second accepts inputs of width 2
    only, the others inputs of width 1. *)
Definition mixed_widths : Runtime PickyEstimator :=
  mkRuntime
    (mkEnsemble 3 "cpu" 2
       [mkPicky 1 [1; 0] true; mkPicky 2 [0; 1] true; mkPicky 1 [1; 0] true]
       true)
    3 [].

End Picky.

Module MoreRuns.

Import Scenario.

(** An ensemble of two classes that holds no estimator yet. *)
Definition unfitted : Runtime ConstEstimator :=
  mkRuntime (mkEnsemble 3 "cpu" 2 [] true) 0 [].

(** Three estimators of two classes, the second of which returns rows of
    three entries. *)
Definition one_too_wide : Runtime ConstEstimator :=
  mkRuntime
    (mkEnsemble 3 "cpu" 2
       [mkConst [1; 0] true; mkConst [1; 0; 0] true; mkConst [1; 0] true]
       true)
    3 [].

(** An ensemble with [n_estimators = 1] that holds two estimators, as
    after two calls of [fit]. *)
Definition fitted_twice : Runtime ConstEstimator :=
  mkRuntime
    (mkEnsemble 1 "cpu" 1 [mkConst [2] true; mkConst [4] true] true) 2 [].

(** An output-dimension inference that raises. *)
Definition no_inference {X Y} (_ : DataLoader X Y) (_ : bool) : res nat :=
  Err IndexError.

End MoreRuns.

(** * Properties *)

(** ** The monad: what a computation leaves of a relation on states *)

Section Keeps.

Context {S : Type} (Rel : S -> S -> Prop).
Hypothesis Rel_refl : forall s, Rel s s.
Hypothesis Rel_trans : forall a b c, Rel a b -> Rel b c -> Rel a c.

Lemma keeps_ret A (a : A) : keeps Rel (ret a).
Proof. intros s; apply Rel_refl. Qed.

Lemma keeps_raise A e : keeps Rel (@raise S A e).
Proof. intros s; apply Rel_refl. Qed.

Lemma keeps_lift A (r : res A) : keeps Rel (lift r).
Proof. intros s; apply Rel_refl. Qed.

Lemma keeps_get : keeps Rel (@get S).
Proof. intros s; apply Rel_refl. Qed.

Lemma keeps_modify (f : S -> S) : (forall s, Rel s (f s)) -> keeps Rel (modify f).
Proof. intros Hf s; apply Hf. Qed.

Lemma keeps_bind A B (m : M S A) (k : A -> M S B) :
  keeps Rel m -> (forall a, keeps Rel (k a)) -> keeps Rel (bind m k).
Proof.
  intros Hm Hk s. unfold bind.
  specialize (Hm s). destruct (m s) as [[a | e] s1]; simpl in *.
  - eapply Rel_trans; [exact Hm | apply Hk].
  - exact Hm.
Qed.

Lemma keeps_for_each A B (xs : list A) (body : A -> B -> M S B) :
  (forall x acc, keeps Rel (body x acc)) ->
  forall acc, keeps Rel (for_each xs body acc).
Proof.
  intros Hbody. induction xs as [| x xs IH]; intros acc; simpl.
  - apply keeps_ret.
  - apply keeps_bind; [apply Hbody | intros a; apply IH].
Qed.

End Keeps.

(** ** Frame of the operations *)

Section Frames.

Context {E : Type} `{Estimator E}.

Lemma same_frame_refl (rt : Runtime E) : same_frame rt rt.
Proof. split; reflexivity. Qed.

Lemma same_frame_trans (a b c : Runtime E) :
  same_frame a b -> same_frame b c -> same_frame a c.
Proof. unfold same_frame; intros [? ?] [? ?]; split; congruence. Qed.

Lemma same_members_refl (rt : Runtime E) : same_members rt rt.
Proof. repeat split; reflexivity. Qed.

Lemma same_members_trans (a b c : Runtime E) :
  same_members a b -> same_members b c -> same_members a c.
Proof.
  unfold same_members, same_frame.
  intros [[? ?] [? ?]] [[? ?] [? ?]]; repeat split; congruence.
Qed.

Lemma same_width_refl (rt : Runtime E) : same_width rt rt.
Proof. split; [apply same_members_refl | split; reflexivity]. Qed.

Lemma same_width_trans (a b c : Runtime E) :
  same_width a b -> same_width b c -> same_width a c.
Proof.
  intros [? [? ?]] [? [? ?]]; split;
    [eapply same_members_trans; eassumption | split; congruence].
Qed.

Lemma average_loop_length n X (ests : list E) acc :
  length (snd (average_loop n X ests acc)) = length ests.
Proof.
  revert acc. induction ests as [| e rest IH]; intros acc; simpl.
  - reflexivity.
  - destruct (call e X) as [out e'].
    destruct (res_bind out (fun o => iadd acc (tdiv o n))) as [acc' | err];
      simpl; [| reflexivity].
    specialize (IH acc').
    destruct (average_loop n X rest acc') as [r rest']; simpl in *.
    now rewrite IH.
Qed.

Lemma mapi_length A B (f : nat -> A -> B) l : length (mapi f l) = length l.
Proof.
  unfold mapi, enumerate.
  rewrite length_map, length_combine, length_seq. apply Nat.min_id.
Qed.

Lemma set_mode_members mode (rt : Runtime E) :
  same_members rt (with_self (set_mode mode) rt).
Proof.
  unfold same_members, same_frame; simpl.
  rewrite length_map. repeat split; reflexivity.
Qed.

Lemma print_width line : keeps same_width (print (E := E) line).
Proof. intros rt. repeat split; reflexivity. Qed.

Lemma validate_width lr wd epochs log_interval :
  keeps same_width (_validate_parameters (E := E) lr wd epochs log_interval).
Proof.
  unfold _validate_parameters.
  destruct (Rlt_dec 0 lr); [| apply keeps_raise, same_width_refl].
  destruct (Rle_dec 0 wd); [| apply keeps_raise, same_width_refl].
  destruct (0 <? epochs)%Z; [| apply keeps_raise, same_width_refl].
  destruct (0 <? log_interval)%Z;
    [apply keeps_ret | apply keeps_raise]; apply same_width_refl.
Qed.

End Frames.

Ltac keeps_step refl trans :=
  first
    [ apply keeps_ret; exact refl
    | apply keeps_raise; exact refl
    | apply keeps_lift; exact refl
    | apply keeps_get; exact refl
    | apply keeps_bind; [exact trans | | intros ?] ].

Section FrameOfStages.

Context {E : Type} `{Estimator E}.

Variable base_estimator : nat -> E.

Lemma make_estimators_constructed n (rt : Runtime E) :
  make_estimators base_estimator n rt
  = (Ok tt, constructed base_estimator n rt).
Proof.
  revert rt. induction n as [| n IH]; intros rt.
  - simpl. unfold ret, constructed. destruct rt as [[ne dv no es tr] fc out].
    simpl. now rewrite app_nil_r, Nat.add_0_r.
  - simpl. unfold bind at 1. unfold _make_estimator at 1.
    unfold bind at 1. unfold modify at 1. rewrite IH.
    unfold constructed, with_self, set_estimators; simpl.
    rewrite <- app_assoc. simpl.
    now rewrite Nat.add_succ_r.
Qed.

Lemma classifier_forward_width X :
  keeps same_width (FusionClassifier._forward (E := E) X).
Proof.
  intros rt. unfold FusionClassifier._forward.
  pose proof (average_loop_length (n_estimators (self rt)) X
                (estimators_ (self rt))
                (zeros (length X) (n_outputs (self rt)))) as Hlen.
  destruct (average_loop _ _ _ _) as [r ests]; simpl in *.
  repeat split; simpl; auto.
Qed.

Lemma classifier_softmax_forward_width X :
  keeps same_width (FusionClassifier.forward (E := E) X).
Proof.
  unfold FusionClassifier.forward.
  apply keeps_bind;
    [exact same_width_trans | apply classifier_forward_width | intros ?].
  keeps_step (@same_width_refl E) (@same_width_trans E).
Qed.

Lemma regressor_forward_width X :
  keeps same_width (FusionRegressor.forward (E := E) X).
Proof.
  intros rt. unfold FusionRegressor.forward.
  pose proof (average_loop_length (n_estimators (self rt)) X
                (estimators_ (self rt))
                (zeros (length X) (n_outputs (self rt)))) as Hlen.
  destruct (average_loop _ _ _ _) as [r ests]; simpl in *.
  repeat split; simpl; auto.
Qed.

End FrameOfStages.

Lemma keeps_weaken {S A} (R1 R2 : S -> S -> Prop) (m : M S A) :
  (forall a b, R1 a b -> R2 a b) -> keeps R1 m -> keeps R2 m.
Proof. intros Himp Hm s; apply Himp, Hm. Qed.

Lemma keeps_get_bind {S A} (Rel : S -> S -> Prop) (k : S -> M S A) :
  (forall s, Rel s (snd (k s s))) -> keeps Rel (bind get k).
Proof. intros Hk s. unfold bind, get. apply Hk. Qed.

Ltac width_steps :=
  repeat first
    [ apply keeps_ret; exact same_width_refl
    | apply keeps_raise; exact same_width_refl
    | apply keeps_lift; exact same_width_refl
    | apply keeps_get; exact same_width_refl
    | apply print_width
    | apply validate_width
    | apply classifier_forward_width
    | apply classifier_softmax_forward_width
    | apply regressor_forward_width
    | apply keeps_bind; [exact same_width_trans | | intros ?] ].

Ltac members_steps :=
  repeat first
    [ apply keeps_ret; exact same_members_refl
    | apply keeps_raise; exact same_members_refl
    | apply keeps_lift; exact same_members_refl
    | apply keeps_get; exact same_members_refl
    | apply keeps_bind; [exact same_members_trans | | intros ?] ].

Section FrameOfClassifier.

Context {E O : Type} `{Estimator E} `{Optimizer E (list Z) O}.

Variable base_estimator : nat -> E.
Variable _decide_n_outputs : DataLoader (list R) Z -> bool -> res nat.

Lemma classifier_fit_batch_width epoch log_interval b (optimizer : O) :
  keeps same_width (FusionClassifier.fit_batch epoch log_interval b optimizer).
Proof.
  unfold FusionClassifier.fit_batch.
  apply keeps_bind;
    [exact same_width_trans | apply classifier_forward_width | intros output].
  apply keeps_bind;
    [exact same_width_trans | apply keeps_lift, same_width_refl
    | intros loss].
  apply keeps_get_bind. intros rt.
  unfold bind at 1. unfold modify at 1.
  match goal with
  | |- same_width rt (snd (?m ?s)) =>
      apply same_width_trans with (b := s);
        [| generalize s; change (keeps same_width m)]
  end.
  - unfold same_width, same_members, same_frame; simpl.
    rewrite mapi_length. repeat split; reflexivity.
  - width_steps.
    destruct (log_interval =? 0)%Z; [width_steps |].
    destruct (Z.of_nat (fst b) mod log_interval =? 0)%Z; width_steps.
Qed.

Lemma classifier_fit_members loader lr wd epochs kind log_interval
  (rt : Runtime E) :
  same_members
    (constructed base_estimator (n_estimators (self rt)) rt)
    (snd (FusionClassifier.fit base_estimator _decide_n_outputs
            loader lr wd epochs kind log_interval rt)).
Proof.
  unfold FusionClassifier.fit.
  unfold bind at 1. unfold get at 1.
  unfold bind at 1. rewrite make_estimators_constructed.
  generalize (constructed base_estimator (n_estimators (self rt)) rt).
  change (keeps same_members
    (n <- lift (_decide_n_outputs loader true) ;;
     modify (with_self (set_n_outputs n)) ;;
     rt0 <- get ;;
     optimizer <- lift (set_optimizer (self rt0) kind lr wd) ;;
     modify (with_self (set_mode true)) ;;
     _validate_parameters lr wd epochs log_interval ;;
     for_each (seq 0 (Z.to_nat epochs))
       (fun epoch optimizer0 =>
          for_each (enumerate (iter loader))
            (FusionClassifier.fit_batch epoch log_interval) optimizer0)
       optimizer ;;
     ret tt)).
  members_steps.
  - apply keeps_modify. intros s. repeat split; reflexivity.
  - apply keeps_modify. intros s. apply set_mode_members.
  - apply keeps_weaken with (R1 := same_width);
      [now intros ? ? [? _] | apply validate_width].
  - apply keeps_weaken with (R1 := same_width);
      [now intros ? ? [? _] |].
    apply keeps_for_each;
      [exact same_width_refl | exact same_width_trans |].
    intros epoch opt.
    apply keeps_for_each;
      [exact same_width_refl | exact same_width_trans |].
    intros b opt'. apply classifier_fit_batch_width.
Qed.

Lemma classifier_predict_batch_width b correct :
  keeps same_width (FusionClassifier.predict_batch (E := E) b correct).
Proof. unfold FusionClassifier.predict_batch. width_steps. Qed.

Lemma classifier_predict_width loader (rt : Runtime E) :
  same_width (evaluating rt) (snd (FusionClassifier.predict loader rt)).
Proof.
  unfold FusionClassifier.predict.
  unfold bind at 1. unfold modify at 1. fold (evaluating rt).
  generalize (evaluating rt).
  match goal with
  | |- forall s, same_width s (snd (?m s)) => change (keeps same_width m)
  end.
  width_steps.
  - apply keeps_for_each;
      [exact same_width_refl | exact same_width_trans |].
    intros b c. apply classifier_predict_batch_width.
  - destruct (length (dataset loader) =? 0)%nat; width_steps.
Qed.

End FrameOfClassifier.

Section FrameOfRegressor.

Context {E O : Type} `{Estimator E} `{Optimizer E Tensor O}.

Variable base_estimator : nat -> E.
Variable _decide_n_outputs
  : DataLoader (list R) (list R) -> bool -> res nat.

Lemma regressor_fit_batch_width epoch log_interval b (optimizer : O) :
  keeps same_width (FusionRegressor.fit_batch epoch log_interval b optimizer).
Proof.
  unfold FusionRegressor.fit_batch.
  apply keeps_bind;
    [exact same_width_trans | apply regressor_forward_width | intros output].
  apply keeps_bind;
    [exact same_width_trans | apply keeps_lift, same_width_refl
    | intros loss].
  apply keeps_get_bind. intros rt.
  unfold bind at 1. unfold modify at 1.
  match goal with
  | |- same_width rt (snd (?m ?s)) =>
      apply same_width_trans with (b := s);
        [| generalize s; change (keeps same_width m)]
  end.
  - unfold same_width, same_members, same_frame; simpl.
    rewrite mapi_length. repeat split; reflexivity.
  - width_steps.
    destruct (log_interval =? 0)%Z; [width_steps |].
    destruct (Z.of_nat (fst b) mod log_interval =? 0)%Z; width_steps.
Qed.

Lemma regressor_fit_members loader lr wd epochs kind log_interval
  (rt : Runtime E) :
  same_members
    (constructed base_estimator (n_estimators (self rt)) rt)
    (snd (FusionRegressor.fit base_estimator _decide_n_outputs
            loader lr wd epochs kind log_interval rt)).
Proof.
  unfold FusionRegressor.fit.
  unfold bind at 1. unfold get at 1.
  unfold bind at 1. rewrite make_estimators_constructed.
  generalize (constructed base_estimator (n_estimators (self rt)) rt).
  change (keeps same_members
    (n <- lift (_decide_n_outputs loader false) ;;
     modify (with_self (set_n_outputs n)) ;;
     rt0 <- get ;;
     optimizer <- lift (set_optimizer (self rt0) kind lr wd) ;;
     modify (with_self (set_mode true)) ;;
     _validate_parameters lr wd epochs log_interval ;;
     for_each (seq 0 (Z.to_nat epochs))
       (fun epoch optimizer0 =>
          for_each (enumerate (iter loader))
            (FusionRegressor.fit_batch epoch log_interval) optimizer0)
       optimizer ;;
     ret tt)).
  members_steps.
  - apply keeps_modify. intros s. repeat split; reflexivity.
  - apply keeps_modify. intros s. apply set_mode_members.
  - apply keeps_weaken with (R1 := same_width);
      [now intros ? ? [? _] | apply validate_width].
  - apply keeps_weaken with (R1 := same_width);
      [now intros ? ? [? _] |].
    apply keeps_for_each;
      [exact same_width_refl | exact same_width_trans |].
    intros epoch opt.
    apply keeps_for_each;
      [exact same_width_refl | exact same_width_trans |].
    intros b opt'. apply regressor_fit_batch_width.
Qed.

Lemma regressor_predict_batch_width b mse :
  keeps same_width (FusionRegressor.predict_batch (E := E) b mse).
Proof. unfold FusionRegressor.predict_batch. width_steps. Qed.

Lemma regressor_predict_width loader (rt : Runtime E) :
  same_width (evaluating rt) (snd (FusionRegressor.predict loader rt)).
Proof.
  unfold FusionRegressor.predict.
  unfold bind at 1. unfold modify at 1. fold (evaluating rt).
  generalize (evaluating rt).
  match goal with
  | |- forall s, same_width s (snd (?m s)) => change (keeps same_width m)
  end.
  width_steps.
  - apply keeps_for_each;
      [exact same_width_refl | exact same_width_trans |].
    intros b c. apply regressor_predict_batch_width.
  - destruct (len loader =? 0)%nat; width_steps.
Qed.

End FrameOfRegressor.

(** ** Evaluation mode: the stateful code against its pure reading *)

Lemma res_map_map {A B C} (f : B -> C) (g : A -> B) (r : res A) :
  res_map f (res_map g r) = res_map (fun a => f (g a)) r.
Proof. now destruct r. Qed.

Lemma for_each_const {S A B V} (s : S) (g : A -> res V) (op : B -> V -> B)
  (body : A -> B -> M S B) :
  (forall x acc, body x acc s = (res_map (op acc) (g x), s)) ->
  forall xs acc,
    for_each xs body acc s
    = (res_map (fun vs => fold_left op vs acc) (res_all (map g xs)), s).
Proof.
  intros Hbody. induction xs as [| x xs IH]; intros acc; simpl.
  - reflexivity.
  - unfold bind. rewrite Hbody.
    destruct (g x) as [v | e]; simpl; [| reflexivity].
    rewrite IH, res_map_map. reflexivity.
Qed.

Lemma fold_left_add_sum (l : list nat) (acc : nat) :
  fold_left Nat.add l acc = (acc + list_sum l)%nat.
Proof.
  revert acc. induction l as [| x l IH]; intros acc; simpl.
  - lia.
  - rewrite IH. lia.
Qed.

Lemma fold_left_Rplus_rsum (l : list R) (acc : R) :
  fold_left Rplus l acc = acc + rsum l.
Proof.
  revert acc. induction l as [| x l IH]; intros acc; simpl.
  - lra.
  - rewrite IH. lra.
Qed.

Section EvalReading.

Context {E : Type} `{EvalMode E}.

Lemma evaluating_in_eval_mode (rt : Runtime E) :
  in_eval_mode (evaluating rt).
Proof.
  unfold in_eval_mode, evaluating; simpl.
  apply Forall_forall. intros e He.
  apply in_map_iff in He. destruct He as [e0 [<- _]].
  apply is_training_train.
Qed.

Lemma average_loop_eval n X (ests : list E) acc :
  Forall (fun e => is_training e = false) ests ->
  snd (average_loop n X ests acc) = ests.
Proof.
  intros Hall. revert acc.
  induction Hall as [| e rest He Hrest IH]; intros acc; simpl.
  - reflexivity.
  - pose proof (call_eval e X He) as Hcall.
    destruct (call e X) as [out e']; simpl in Hcall; subst e'.
    destruct (res_bind out (fun o => iadd acc (tdiv o n))) as [acc' | err];
      simpl; [| reflexivity].
    specialize (IH acc').
    destruct (average_loop n X rest acc') as [r rest']; simpl in *.
    now rewrite IH.
Qed.

Lemma with_self_same_estimators (rt : Runtime E) :
  with_self (set_estimators (estimators_ (self rt))) rt = rt.
Proof. now destruct rt as [[? ? ? ? ?] ? ?]. Qed.

Lemma classifier__forward_eval X (rt : Runtime E) :
  in_eval_mode rt -> snd (FusionClassifier._forward X rt) = rt.
Proof.
  intros Hev. unfold FusionClassifier._forward.
  pose proof (average_loop_eval (n_estimators (self rt)) X
                (zeros (length X) (n_outputs (self rt))) Hev) as Hsnd.
  destruct (average_loop _ _ _ _) as [r ests]; simpl in *; subst ests.
  apply with_self_same_estimators.
Qed.

Lemma classifier_forward_eval X (rt : Runtime E) :
  in_eval_mode rt -> snd (FusionClassifier.forward X rt) = rt.
Proof.
  intros Hev. unfold FusionClassifier.forward, bind.
  pose proof (classifier__forward_eval X Hev) as Hsnd.
  destruct (FusionClassifier._forward X rt) as [[p | e] rt']; simpl in *;
    assumption.
Qed.

Lemma regressor_forward_eval X (rt : Runtime E) :
  in_eval_mode rt -> snd (FusionRegressor.forward X rt) = rt.
Proof.
  intros Hev. unfold FusionRegressor.forward.
  pose proof (average_loop_eval (n_estimators (self rt)) X
                (zeros (length X) (n_outputs (self rt))) Hev) as Hsnd.
  destruct (average_loop _ _ _ _) as [r ests]; simpl in *; subst ests.
  apply with_self_same_estimators.
Qed.

Lemma classifier_predict_batch_eval (rt : Runtime E) b correct :
  in_eval_mode rt ->
  FusionClassifier.predict_batch b correct rt
  = (res_map (Nat.add correct) (batch_hits rt b), rt).
Proof.
  intros Hev. unfold FusionClassifier.predict_batch, batch_hits, bind.
  pose proof (classifier_forward_eval (fst (snd b)) Hev) as Hsnd.
  destruct (FusionClassifier.forward (fst (snd b)) rt) as [[p | e] rt'];
    simpl in *; subst rt'; [| reflexivity].
  unfold lift. now destruct (count_correct p (snd (snd b))).
Qed.

Lemma regressor_predict_batch_eval (rt : Runtime E) b mse :
  in_eval_mode rt ->
  FusionRegressor.predict_batch b mse rt
  = (res_map (Rplus mse) (batch_mse rt b), rt).
Proof.
  intros Hev. unfold FusionRegressor.predict_batch, batch_mse, bind.
  pose proof (regressor_forward_eval (fst (snd b)) Hev) as Hsnd.
  destruct (FusionRegressor.forward (fst (snd b)) rt) as [[p | e] rt'];
    simpl in *; subst rt'; [| reflexivity].
  unfold lift. now destruct (mse_loss p (snd (snd b))).
Qed.

(** [FusionClassifier.predict] read as a pure function of the ensemble in
    evaluation mode and of the loader. *)
Lemma classifier_predict_eval loader (rt : Runtime E) :
  FusionClassifier.predict loader rt
  = (res_bind
       (res_all (map (batch_hits (evaluating rt))
                     (enumerate (iter loader))))
       (fun hits =>
          if (length (dataset loader) =? 0)%nat
          then Err ZeroDivisionError
          else Ok (100 * INR (list_sum hits)
                   / INR (length (dataset loader)))),
     evaluating rt).
Proof.
  unfold FusionClassifier.predict.
  unfold bind at 1. unfold modify at 1. fold (evaluating rt).
  unfold bind at 1.
  rewrite (@for_each_const _ _ _ _ (evaluating rt)
             (batch_hits (evaluating rt)) Nat.add).
  2: { intros x acc. apply classifier_predict_batch_eval.
       apply evaluating_in_eval_mode. }
  destruct (res_all _) as [hits | e]; simpl; [| reflexivity].
  rewrite fold_left_add_sum. simpl.
  now destruct (length (dataset loader) =? 0)%nat.
Qed.

(** [FusionRegressor.predict] read the same way. *)
Lemma regressor_predict_eval loader (rt : Runtime E) :
  FusionRegressor.predict loader rt
  = (res_bind
       (res_all (map (batch_mse (evaluating rt))
                     (enumerate (iter loader))))
       (fun losses =>
          if (len loader =? 0)%nat
          then Err ZeroDivisionError
          else Ok (rsum losses / INR (len loader))),
     evaluating rt).
Proof.
  unfold FusionRegressor.predict.
  unfold bind at 1. unfold modify at 1. fold (evaluating rt).
  unfold bind at 1.
  rewrite (@for_each_const _ _ _ _ (evaluating rt)
             (batch_mse (evaluating rt)) Rplus).
  2: { intros x acc. apply regressor_predict_batch_eval.
       apply evaluating_in_eval_mode. }
  destruct (res_all _) as [losses | e]; simpl; [| reflexivity].
  rewrite fold_left_Rplus_rsum, Rplus_0_l.
  now destruct (len loader =? 0)%nat.
Qed.

End EvalReading.

(** ** Tensors: shapes and entries *)

Lemma map2_exact_length {A B C} (f : A -> B -> option C) a b c :
  map2_exact f a b = Some c -> length c = length a /\ length c = length b.
Proof.
  revert b c. induction a as [| x a IH]; intros [| y b] c Hc; simpl in Hc;
    try discriminate.
  - injection Hc as <-. split; reflexivity.
  - destruct (f x y) as [z |]; [| discriminate].
    destruct (map2_exact f a b) as [c' |] eqn:Hrec; [| discriminate].
    injection Hc as <-. destruct (IH _ _ Hrec). simpl. split; congruence.
Qed.

Lemma map2_exact_total {A B C} (f : A -> B -> option C) a b :
  length a = length b ->
  (forall x y, In x a -> In y b -> exists z, f x y = Some z) ->
  exists c, map2_exact f a b = Some c.
Proof.
  revert b. induction a as [| x a IH]; intros [| y b] Hlen Hf; simpl in *;
    try discriminate.
  - now exists [].
  - destruct (Hf x y) as [z Hz]; auto. rewrite Hz.
    destruct (IH b) as [c Hc]; [lia | intros; apply Hf; auto |].
    rewrite Hc. now eexists.
Qed.

Lemma row_map2_total f (a b : list R) :
  length a = length b -> exists c, row_map2 f a b = Some c.
Proof.
  intros Hlen. apply map2_exact_total; [exact Hlen |].
  intros x y _ _. now eexists.
Qed.

Lemma row_map2_nth f (a b c : list R) :
  f 0 0 = 0 ->
  row_map2 f a b = Some c ->
  forall k, nth k c 0 = f (nth k a 0) (nth k b 0).
Proof.
  intros Hf. unfold row_map2.
  revert b c. induction a as [| x a IH]; intros [| y b] c Hc; simpl in Hc;
    try discriminate.
  - injection Hc as <-. intros [| k]; simpl; now rewrite Hf.
  - destruct (map2_exact _ a b) as [c' |] eqn:Hrec; [| discriminate].
    injection Hc as <-. intros [| k]; simpl; [reflexivity |].
    now apply IH.
Qed.

Lemma tensor_map2_entry f (a b c : Tensor) :
  f 0 0 = 0 ->
  tensor_map2 f a b = Some c ->
  forall r k, entry c r k = f (entry a r k) (entry b r k).
Proof.
  intros Hf. unfold tensor_map2, entry.
  revert b c. induction a as [| x a IH]; intros [| y b] c Hc; simpl in Hc;
    try discriminate.
  - injection Hc as <-. intros [| r] [| k]; simpl; now rewrite Hf.
  - destruct (row_map2 f x y) as [z |] eqn:Hrow; [| discriminate].
    destruct (map2_exact _ a b) as [c' |] eqn:Hrec; [| discriminate].
    injection Hc as <-. intros [| r] k; simpl.
    + now apply row_map2_nth.
    + now apply IH.
Qed.

Lemma tensor_map2_lengths f (a b c : Tensor) :
  tensor_map2 f a b = Some c -> map (@length R) c = map (@length R) a.
Proof.
  unfold tensor_map2.
  revert b c. induction a as [| x a IH]; intros [| y b] c Hc; simpl in Hc;
    try discriminate.
  - now injection Hc as <-.
  - destruct (row_map2 f x y) as [z |] eqn:Hrow; [| discriminate].
    destruct (map2_exact _ a b) as [c' |] eqn:Hrec; [| discriminate].
    injection Hc as <-. simpl.
    destruct (map2_exact_length _ _ _ Hrow) as [-> _].
    f_equal. now apply IH with (b := b).
Qed.

Lemma has_shape_lengths rows cols (t : Tensor) :
  has_shape rows cols t <-> map (@length R) t = repeat cols rows.
Proof.
  unfold has_shape. revert rows.
  induction t as [| x t IH]; intros rows; simpl.
  - split.
    + intros [<- _]. reflexivity.
    + destruct rows; [split; auto | discriminate].
  - split.
    + intros [<- Hall]. inversion Hall; subst. simpl. f_equal.
      apply IH. split; auto.
    + destruct rows as [| rows]; [discriminate |]. simpl.
      intros Heq. injection Heq as Hx Ht.
      apply IH in Ht. destruct Ht as [Hlen Hall].
      split; [congruence | constructor; assumption].
Qed.

Lemma tensor_map2_total f (a b : Tensor) rows cols :
  has_shape rows cols a -> has_shape rows cols b ->
  exists c, tensor_map2 f a b = Some c.
Proof.
  intros [Hla Ha] [Hlb Hb]. apply map2_exact_total; [congruence |].
  intros x y Hx Hy. apply row_map2_total.
  rewrite Forall_forall in Ha, Hb. rewrite (Ha x Hx), (Hb y Hy). reflexivity.
Qed.

Lemma zeros_shape rows cols : has_shape rows cols (zeros rows cols).
Proof.
  apply has_shape_lengths. unfold zeros.
  induction rows as [| rows IH]; simpl; [reflexivity |].
  now rewrite repeat_length, IH.
Qed.

Lemma nth_repeat_default {A} (x : A) n k : nth k (repeat x n) x = x.
Proof.
  revert k. induction n as [| n IH]; intros [| k]; simpl; auto.
Qed.

Lemma zeros_entry rows cols r k : entry (zeros rows cols) r k = 0.
Proof.
  unfold entry, zeros.
  destruct (Nat.lt_ge_cases r rows) as [Hlt | Hge].
  - rewrite nth_indep with (d' := repeat 0 cols)
      by (now rewrite repeat_length).
    rewrite nth_repeat_default. apply nth_repeat_default.
  - rewrite (nth_overflow (repeat (repeat 0 cols) rows))
      by (now rewrite repeat_length).
    now destruct k.
Qed.

Lemma tdiv_shape rows cols t n :
  has_shape rows cols t -> has_shape rows cols (tdiv t n).
Proof.
  intros Hs. apply has_shape_lengths. apply has_shape_lengths in Hs.
  unfold tdiv. rewrite map_map.
  rewrite <- Hs. apply map_ext. intros row. apply length_map.
Qed.

Lemma tdiv_entry t n r k : entry (tdiv t n) r k = entry t r k / INR n.
Proof.
  unfold entry, tdiv.
  change (@nil R) with (map (fun x => x / INR n) []) at 1.
  rewrite (map_nth (map (fun x => x / INR n)) t [] r).
  rewrite <- (map_nth (fun x => x / INR n) (nth r t []) 0 k).
  f_equal. unfold Rdiv. now rewrite Rmult_0_l.
Qed.

Lemma iadd_ok rows cols (a b : Tensor) :
  has_shape rows cols a -> has_shape rows cols b ->
  exists c, iadd a b = Ok c /\ has_shape rows cols c /\
            forall r k, entry c r k = entry a r k + entry b r k.
Proof.
  intros Ha Hb. unfold iadd.
  destruct (tensor_map2_total Rplus Ha Hb) as [c Hc]. rewrite Hc.
  exists c. split; [reflexivity |]. split.
  - apply has_shape_lengths. rewrite (tensor_map2_lengths _ _ _ Hc).
    now apply has_shape_lengths.
  - apply tensor_map2_entry; [lra | exact Hc].
Qed.

Lemma iadd_lengths (a b c : Tensor) :
  iadd a b = Ok c -> map (@length R) c = map (@length R) a.
Proof.
  unfold iadd. destruct (tensor_map2 Rplus a b) as [c' |] eqn:Hc;
    [| discriminate].
  intros Heq. injection Heq as <-. exact (tensor_map2_lengths _ _ _ Hc).
Qed.

(** ** The averaged forward pass *)

Lemma rsum_map_div {A} (f : A -> R) (l : list A) (d : R) :
  rsum (map (fun a => f a / d) l) = 1 / d * rsum (map f l).
Proof.
  induction l as [| a l IH]; simpl.
  - unfold Rdiv. now rewrite Rmult_0_r.
  - rewrite IH. unfold Rdiv. ring.
Qed.

Section AveragedForward.

Context {E : Type} `{Estimator E}.

Lemma average_loop_mean n X rows cols (ests : list E) :
  forall outs acc,
    map (fun e => fst (call e X)) ests = map Ok outs ->
    Forall (has_shape rows cols) outs ->
    has_shape rows cols acc ->
    exists P,
      fst (average_loop n X ests acc) = Ok P /\
      has_shape rows cols P /\
      forall r k,
        entry P r k
        = entry acc r k + rsum (map (fun o => entry o r k / INR n) outs).
Proof.
  induction ests as [| e rest IH]; intros outs acc Houts Hshapes Hacc.
  - destruct outs; [| discriminate]. simpl. exists acc.
    repeat split; try apply Hacc. intros r k. lra.
  - destruct outs as [| o outs]; [discriminate |].
    simpl in Houts. injection Houts as Ho Hrest.
    inversion Hshapes as [| ? ? Hso Hsouts]; subst.
    simpl. destruct (call e X) as [out e']; simpl in Ho; subst out.
    simpl.
    destruct (iadd_ok Hacc (tdiv_shape n Hso)) as [acc' [Hadd [Hs' He']]].
    rewrite Hadd.
    destruct (IH outs acc' Hrest Hsouts Hs') as [P [HP [HsP HeP]]].
    destruct (average_loop n X rest acc') as [r rest']; simpl in *.
    exists P. repeat split; try apply HsP; [exact HP |].
    intros r0 k. rewrite HeP, He', tdiv_entry. lra.
Qed.

Lemma forward_mean (rt : Runtime E) X outs :
  map (fun e => fst (call e X)) (estimators_ (self rt)) = map Ok outs ->
  Forall (has_shape (length X) (n_outputs (self rt))) outs ->
  exists P,
    fst (FusionClassifier._forward X rt) = Ok P /\
    fst (FusionRegressor.forward X rt) = Ok P /\
    has_shape (length X) (n_outputs (self rt)) P /\
    forall r k,
      entry P r k
      = 1 / INR (n_estimators (self rt))
        * rsum (map (fun o => entry o r k) outs).
Proof.
  intros Houts Hshapes.
  destruct (@average_loop_mean (n_estimators (self rt)) X (length X)
              (n_outputs (self rt)) (estimators_ (self rt)) outs
              (zeros (length X) (n_outputs (self rt))) Houts Hshapes
              (zeros_shape (length X) (n_outputs (self rt))))
    as [P [HP [HsP HeP]]].
  exists P. unfold FusionClassifier._forward, FusionRegressor.forward.
  destruct (average_loop _ _ _ _) as [r ests]; simpl in *.
  repeat split; try apply HsP; try exact HP.
  intros r0 k. rewrite HeP, zeros_entry, rsum_map_div. lra.
Qed.

Lemma entry_repeat_row (v : list R) rows r k :
  (r < rows)%nat -> entry (repeat v rows) r k = nth k v 0.
Proof.
  intros Hr. unfold entry.
  rewrite nth_indep with (d' := v) by (now rewrite repeat_length).
  now rewrite nth_repeat_default.
Qed.

(** C4.  With [N >= 1] estimators held, [N] being [n_estimators], and
    every estimator returning a tensor of shape (batch size, n_outputs)
    on the batch [X], [FusionClassifier._forward] and
    [FusionRegressor.forward] both return the tensor whose every entry is
    (1/N) times the sum of the estimators' entries at that place; when
    estimator [i] returns the row [v_i] for every example, every entry of
    every output row is the sum of the [v_i] entries divided by [N],
    whatever the batch size. *)
Theorem averaged_forward_is_mean (rt : Runtime E) X outs :
  (1 <= n_estimators (self rt))%nat ->
  length (estimators_ (self rt)) = n_estimators (self rt) ->
  map (fun e => fst (call e X)) (estimators_ (self rt)) = map Ok outs ->
  Forall (has_shape (length X) (n_outputs (self rt))) outs ->
  exists P,
    fst (FusionClassifier._forward X rt) = Ok P /\
    fst (FusionRegressor.forward X rt) = Ok P /\
    has_shape (length X) (n_outputs (self rt)) P /\
    (forall r k,
        entry P r k
        = 1 / INR (length outs) * rsum (map (fun o => entry o r k) outs)) /\
    (forall vs,
        outs = map (fun v => repeat v (length X)) vs ->
        forall r k, (r < length X)%nat ->
          entry P r k
          = rsum (map (fun v => nth k v 0) vs) / INR (length vs)).
Proof.
  intros Hpos Hlen Houts Hshapes.
  assert (Hn : length outs = n_estimators (self rt)).
  { rewrite <- Hlen.
    erewrite <- (length_map (@Ok Tensor)), <- Houts. apply length_map. }
  destruct (@forward_mean rt X outs Houts Hshapes) as [P [Hc [Hr [Hs He]]]].
  exists P. repeat split; try apply Hs; try assumption.
  - intros r k. rewrite Hn. apply He.
  - intros vs -> r k Hr'. rewrite He, map_map.
    rewrite length_map in Hn. rewrite Hn.
    rewrite (map_ext (fun v => entry (repeat v (length X)) r k)
                     (fun v => nth k v 0))
      by (intros v; now apply entry_repeat_row).
    unfold Rdiv. ring.
Qed.

End AveragedForward.

(** ** Softmax

    The facts below are facts of exact arithmetic: they serve to evaluate
    runs whose scores are far apart, and say nothing of scores that
    floating point rounds together. *)

Lemma rsum_exp_pos (row : list R) : row <> [] -> 0 < rsum (map exp row).
Proof.
  destruct row as [| x row]; [congruence | intros _].
  simpl. assert (Hrest : 0 <= rsum (map exp row)).
  { induction row as [| y row IH]; simpl; [lra |].
    pose proof (exp_pos y). lra. }
  pose proof (exp_pos x). lra.
Qed.

Lemma softmax_row_positive (row : list R) :
  Forall (fun p => 0 < p) (softmax_row row).
Proof.
  unfold softmax_row. apply Forall_forall. intros p Hp.
  apply in_map_iff in Hp. destruct Hp as [x [<- Hx]].
  assert (Hne : row <> []) by (intros ->; inversion Hx).
  apply Rdiv_lt_0_compat; [apply exp_pos | now apply rsum_exp_pos].
Qed.

Lemma softmax_row_sum (row : list R) :
  row <> [] -> rsum (softmax_row row) = 1.
Proof.
  intros Hne. unfold softmax_row.
  rewrite (rsum_map_div exp row (rsum (map exp row))).
  pose proof (rsum_exp_pos Hne). field. lra.
Qed.

Lemma softmax_row_length (row : list R) :
  length (softmax_row row) = length row.
Proof. apply length_map. Qed.

Lemma argmax_from_monotone (f : R -> R) :
  (forall a b, a < b <-> f a < f b) ->
  forall l best_i best i,
    argmax_from best_i (f best) i (map f l) = argmax_from best_i best i l.
Proof.
  intros Hf. induction l as [| x l IH]; intros best_i best i; simpl.
  - reflexivity.
  - destruct (Rlt_dec (f best) (f x)) as [Hlt | Hge];
      destruct (Rlt_dec best x) as [Hlt' | Hge'].
    + apply IH.
    + exfalso. apply Hge'. exact (proj2 (Hf best x) Hlt).
    + exfalso. apply Hge. exact (proj1 (Hf best x) Hlt').
    + apply IH.
Qed.

Lemma argmax_softmax_row (row : list R) :
  argmax (softmax_row row) = argmax row.
Proof.
  destruct row as [| x l]; [reflexivity |].
  unfold softmax_row.
  set (total := rsum (map exp (x :: l))).
  assert (Hpos : 0 < total) by (apply rsum_exp_pos; discriminate).
  simpl map. unfold argmax. f_equal.
  apply (argmax_from_monotone (fun y => exp y / total)).
  intros a b. cbv beta. unfold Rdiv. split.
  - intros Hab. apply Rmult_lt_compat_r;
      [now apply Rinv_0_lt_compat | now apply exp_increasing].
  - intros Hab. apply exp_lt_inv.
    apply Rmult_lt_reg_r with (r := / total);
      [now apply Rinv_0_lt_compat | exact Hab].
Qed.

Lemma max1_indices_softmax (output : Tensor) :
  max1_indices (softmax output) = max1_indices output.
Proof.
  unfold max1_indices, softmax. rewrite map_map.
  f_equal. apply map_ext. exact argmax_softmax_row.
Qed.

Lemma count_correct_softmax (output : Tensor) (target : list Z) :
  count_correct (softmax output) target = count_correct output target.
Proof. unfold count_correct. now rewrite max1_indices_softmax. Qed.

Section ClassDistribution.

Context {E : Type} `{Estimator E}.

Lemma average_loop_lengths n X (ests : list E) :
  forall acc P,
    fst (average_loop n X ests acc) = Ok P ->
    map (@length R) P = map (@length R) acc.
Proof.
  induction ests as [| e rest IH]; intros acc P; simpl.
  - intros Heq. now injection Heq as <-.
  - destruct (call e X) as [[o | err] e']; simpl; [| discriminate].
    destruct (iadd acc (tdiv o n)) as [acc' | err] eqn:Hadd;
      [| discriminate].
    specialize (IH acc' P).
    destruct (average_loop n X rest acc') as [r rest']; simpl in *.
    intros Hr. rewrite (IH Hr). exact (iadd_lengths _ _ Hadd).
Qed.

Lemma classifier__forward_shape (rt : Runtime E) X P :
  fst (FusionClassifier._forward X rt) = Ok P ->
  has_shape (length X) (n_outputs (self rt)) P.
Proof.
  unfold FusionClassifier._forward. intros HP.
  apply has_shape_lengths.
  pose proof (average_loop_lengths (n_estimators (self rt)) X
                (estimators_ (self rt))
                (zeros (length X) (n_outputs (self rt))) (P := P)) as Hl.
  destruct (average_loop _ _ _ _) as [r ests]; simpl in *.
  rewrite (Hl HP). apply has_shape_lengths, zeros_shape.
Qed.

Lemma classifier_forward_softmax (rt : Runtime E) X :
  FusionClassifier.forward X rt
  = (res_map softmax (fst (FusionClassifier._forward X rt)),
     snd (FusionClassifier._forward X rt)).
Proof.
  unfold FusionClassifier.forward, bind.
  now destruct (FusionClassifier._forward X rt) as [[p | e] rt'].
Qed.

Lemma classifier_forward_result (rt : Runtime E) X :
  fst (FusionClassifier.forward X rt)
  = res_map softmax (fst (FusionClassifier._forward X rt)).
Proof. now rewrite classifier_forward_softmax. Qed.

(** C6.  Every row of the tensor that [FusionClassifier.forward] returns
    for a classifier of at least one class is a probability distribution
    over the reals: it has [n_outputs] entries, none negative, and they
    sum to 1. *)
Theorem forward_rows_are_distributions (rt : Runtime E) X proba :
  (0 < n_outputs (self rt))%nat ->
  fst (FusionClassifier.forward X rt) = Ok proba ->
  length proba = length X /\
  Forall (fun row =>
            length row = n_outputs (self rt) /\
            Forall (fun p => 0 <= p) row /\
            rsum row = 1) proba.
Proof.
  intros Hpos. rewrite classifier_forward_softmax. simpl.
  destruct (fst (FusionClassifier._forward X rt)) as [P | e] eqn:HP;
    [| discriminate].
  simpl. intros Heq. injection Heq as <-.
  destruct (classifier__forward_shape rt X HP) as [Hrows Hcols].
  split; [unfold softmax; now rewrite length_map |].
  unfold softmax. apply Forall_forall. intros row Hrow.
  apply in_map_iff in Hrow. destruct Hrow as [row0 [<- Hin]].
  rewrite Forall_forall in Hcols. specialize (Hcols row0 Hin).
  split; [now rewrite softmax_row_length |]. split.
  - eapply Forall_impl; [| apply softmax_row_positive].
    intros p Hp. lra.
  - apply softmax_row_sum. intros ->. simpl in Hcols. lia.
Qed.

End ClassDistribution.

(** ** The training stage up to the validation of the hyper-parameters *)

Section Validation.

Context {E : Type} `{Estimator E}.

Lemma validate_accepts lr wd epochs log_interval (rt : Runtime E) :
  valid_parameters lr wd epochs log_interval ->
  _validate_parameters lr wd epochs log_interval rt = (Ok tt, rt).
Proof.
  intros [Hlr [Hwd [Hep Hli]]]. unfold _validate_parameters.
  destruct (Rlt_dec 0 lr); [| contradiction].
  destruct (Rle_dec 0 wd); [| contradiction].
  apply Z.ltb_lt in Hep, Hli. now rewrite Hep, Hli.
Qed.

Lemma validate_rejects lr wd epochs log_interval (rt : Runtime E) :
  ~ valid_parameters lr wd epochs log_interval ->
  _validate_parameters lr wd epochs log_interval rt = (Err ValueError, rt).
Proof.
  intros Hbad. unfold _validate_parameters.
  destruct (Rlt_dec 0 lr) as [Hlr |]; [| reflexivity].
  destruct (Rle_dec 0 wd) as [Hwd |]; [| reflexivity].
  destruct (0 <? epochs)%Z eqn:Hep; [| reflexivity].
  destruct (0 <? log_interval)%Z eqn:Hli; [| reflexivity].
  exfalso. apply Hbad. apply Z.ltb_lt in Hep, Hli.
  repeat split; assumption.
Qed.

End Validation.

Section ClassifierFit.

Context {E O : Type} `{Estimator E} `{Optimizer E (list Z) O}.

Variable base_estimator : nat -> E.
Variable _decide_n_outputs : DataLoader (list R) Z -> bool -> res nat.

Let fit := FusionClassifier.fit (O := O) base_estimator _decide_n_outputs.

Lemma classifier_fit_rejects loader lr wd epochs kind log_interval
  (rt : Runtime E) n opt :
  _decide_n_outputs loader true = Ok n ->
  set_optimizer
    (self (with_self (set_n_outputs n)
       (constructed base_estimator (n_estimators (self rt)) rt)))
    kind lr wd = Ok opt ->
  ~ valid_parameters lr wd epochs log_interval ->
  fit loader lr wd epochs kind log_interval rt
  = (Err ValueError, prepared base_estimator n rt).
Proof.
  intros Hn Hopt Hbad. unfold fit, FusionClassifier.fit.
  unfold bind at 1. unfold get at 1.
  unfold bind at 1. rewrite make_estimators_constructed.
  unfold bind at 1. unfold lift at 1. rewrite Hn.
  unfold bind at 1. unfold modify at 1.
  unfold bind at 1. unfold get at 1.
  unfold bind at 1. unfold lift at 1. rewrite Hopt.
  unfold bind at 1. unfold modify at 1.
  unfold bind at 1. fold (prepared base_estimator n rt).
  now rewrite validate_rejects.
Qed.

Lemma classifier_fit_trains loader lr wd epochs kind log_interval
  (rt : Runtime E) n opt :
  _decide_n_outputs loader true = Ok n ->
  set_optimizer
    (self (with_self (set_n_outputs n)
       (constructed base_estimator (n_estimators (self rt)) rt)))
    kind lr wd = Ok opt ->
  same_width (prepared base_estimator n rt)
             (snd (fit loader lr wd epochs kind log_interval rt)).
Proof.
  intros Hn Hopt. unfold fit, FusionClassifier.fit.
  unfold bind at 1. unfold get at 1.
  unfold bind at 1. rewrite make_estimators_constructed.
  unfold bind at 1. unfold lift at 1. rewrite Hn.
  unfold bind at 1. unfold modify at 1.
  unfold bind at 1. unfold get at 1.
  unfold bind at 1. unfold lift at 1. rewrite Hopt.
  unfold bind at 1. unfold modify at 1.
  fold (prepared base_estimator n rt).
  generalize (prepared base_estimator n rt).
  match goal with
  | |- forall s, same_width s (snd (?m s)) => change (keeps same_width m)
  end.
  width_steps.
  apply keeps_for_each; [exact same_width_refl | exact same_width_trans |].
  intros epoch o.
  apply keeps_for_each; [exact same_width_refl | exact same_width_trans |].
  intros b o'. apply classifier_fit_batch_width.
Qed.

End ClassifierFit.

Section RegressorFit.

Context {E O : Type} `{Estimator E} `{Optimizer E Tensor O}.

Variable base_estimator : nat -> E.
Variable _decide_n_outputs
  : DataLoader (list R) (list R) -> bool -> res nat.

Let fit := FusionRegressor.fit (O := O) base_estimator _decide_n_outputs.

Lemma regressor_fit_rejects loader lr wd epochs kind log_interval
  (rt : Runtime E) n opt :
  _decide_n_outputs loader false = Ok n ->
  set_optimizer
    (self (with_self (set_n_outputs n)
       (constructed base_estimator (n_estimators (self rt)) rt)))
    kind lr wd = Ok opt ->
  ~ valid_parameters lr wd epochs log_interval ->
  fit loader lr wd epochs kind log_interval rt
  = (Err ValueError, prepared base_estimator n rt).
Proof.
  intros Hn Hopt Hbad. unfold fit, FusionRegressor.fit.
  unfold bind at 1. unfold get at 1.
  unfold bind at 1. rewrite make_estimators_constructed.
  unfold bind at 1. unfold lift at 1. rewrite Hn.
  unfold bind at 1. unfold modify at 1.
  unfold bind at 1. unfold get at 1.
  unfold bind at 1. unfold lift at 1. rewrite Hopt.
  unfold bind at 1. unfold modify at 1.
  unfold bind at 1. fold (prepared base_estimator n rt).
  now rewrite validate_rejects.
Qed.

Lemma regressor_fit_trains loader lr wd epochs kind log_interval
  (rt : Runtime E) n opt :
  _decide_n_outputs loader false = Ok n ->
  set_optimizer
    (self (with_self (set_n_outputs n)
       (constructed base_estimator (n_estimators (self rt)) rt)))
    kind lr wd = Ok opt ->
  same_width (prepared base_estimator n rt)
             (snd (fit loader lr wd epochs kind log_interval rt)).
Proof.
  intros Hn Hopt. unfold fit, FusionRegressor.fit.
  unfold bind at 1. unfold get at 1.
  unfold bind at 1. rewrite make_estimators_constructed.
  unfold bind at 1. unfold lift at 1. rewrite Hn.
  unfold bind at 1. unfold modify at 1.
  unfold bind at 1. unfold get at 1.
  unfold bind at 1. unfold lift at 1. rewrite Hopt.
  unfold bind at 1. unfold modify at 1.
  fold (prepared base_estimator n rt).
  generalize (prepared base_estimator n rt).
  match goal with
  | |- forall s, same_width s (snd (?m s)) => change (keeps same_width m)
  end.
  width_steps.
  apply keeps_for_each; [exact same_width_refl | exact same_width_trans |].
  intros epoch o.
  apply keeps_for_each; [exact same_width_refl | exact same_width_trans |].
  intros b o'. apply regressor_fit_batch_width.
Qed.

End RegressorFit.

(** ** Data loaders *)

Lemma batch_sampler_sum {A} size drop (sampler batch : list A) :
  (list_sum (map (@length A) (batch_sampler size drop batch sampler))
   <= length batch + length sampler)%nat /\
  (drop = false ->
   list_sum (map (@length A) (batch_sampler size drop batch sampler))
   = (length batch + length sampler)%nat).
Proof.
  revert batch. induction sampler as [| idx rest IH]; intros batch; simpl.
  - destruct (0 <? length batch)%nat eqn:Hb; destruct drop; simpl;
      try (split; [lia | intros; try discriminate; try lia]).
    apply Nat.ltb_ge in Hb. lia.
  - destruct (length (batch ++ [idx]) =? size)%nat.
    + destruct (IH []) as [Hle Heq]. simpl in *.
      rewrite length_app. simpl. split; [lia |].
      intros Hd. rewrite (Heq Hd). lia.
    + destruct (IH (batch ++ [idx])) as [Hle Heq].
      rewrite length_app in Hle, Heq. simpl in *. split; [lia |].
      intros Hd. rewrite (Heq Hd). lia.
Qed.

Lemma batches_within_dataset {X Y} (loader : DataLoader X Y) :
  (list_sum (batch_sizes loader) <= length (dataset loader))%nat.
Proof.
  unfold batch_sizes, batches.
  destruct (batch_sampler_sum (batch_size loader) (drop_last loader)
              (dataset loader) []) as [Hle _].
  exact Hle.
Qed.

Lemma keep_last_covers {X Y} (loader : DataLoader X Y) :
  drop_last loader = false -> covers loader.
Proof.
  intros Hd. unfold covers, batch_sizes, batches.
  destruct (batch_sampler_sum (batch_size loader) (drop_last loader)
              (dataset loader) []) as [_ Heq].
  exact (Heq Hd).
Qed.

Lemma batch_sampler_nonempty {A} size drop (sampler batch : list A) :
  Forall (fun b => b <> []) (batch_sampler size drop batch sampler).
Proof.
  revert batch. induction sampler as [| idx rest IH]; intros batch; simpl.
  - destruct (0 <? length batch)%nat eqn:Hb; destruct drop; simpl;
      constructor; auto.
    intros ->. discriminate.
  - destruct (length (batch ++ [idx]) =? size)%nat; [| apply IH].
    constructor; [| apply IH]. now destruct batch.
Qed.


Lemma enumerate_length {A} (l : list A) : length (enumerate l) = length l.
Proof.
  unfold enumerate. rewrite length_combine, length_seq. apply Nat.min_id.
Qed.

(** ** Results of a whole list of batches *)

Lemma res_all_Forall2 {A B} (g : A -> res B) (xs : list A) (vs : list B) :
  res_all (map g xs) = Ok vs <-> Forall2 (fun x v => g x = Ok v) xs vs.
Proof.
  revert vs. induction xs as [| x xs IH]; intros vs; simpl.
  - split.
    + intros Heq. injection Heq as <-. constructor.
    + intros Hall. now inversion Hall.
  - split.
    + destruct (g x) as [v |] eqn:Hg; [| discriminate].
      destruct (res_all (map g xs)) as [vs' |] eqn:Hrec; [| discriminate].
      simpl. intros Heq. injection Heq as <-.
      constructor; [exact Hg | now apply IH].
    + intros Hall. inversion Hall as [| ? v ? vs' Hg Hrest]; subst.
      rewrite Hg. apply IH in Hrest. now rewrite Hrest.
Qed.


Lemma eq_sum_le pred target k :
  eq_sum pred target = Ok k -> (k <= length target)%nat.
Proof.
  unfold eq_sum.
  destruct (map2_exact _ pred target) as [hits |] eqn:Hm; [| discriminate].
  intros Heq. injection Heq as <-.
  destruct (map2_exact_length _ _ _ Hm) as [_ <-].
  apply filter_length_le.
Qed.


Lemma count_correct_le output target k :
  count_correct output target = Ok k -> (k <= length target)%nat.
Proof.
  unfold count_correct.
  destruct (max1_indices output) as [pred | e]; simpl; [| discriminate].
  apply eq_sum_le.
Qed.



(** ** Evaluation stage of the classifier *)

Section ClassifierPredict.

Context {E : Type} `{EvalMode E}.





End ClassifierPredict.

(** ** Evaluation stage of the regressor *)

Lemma rsum_nonneg (l : list R) : Forall (fun x => 0 <= x) l -> 0 <= rsum l.
Proof. induction 1; simpl; lra. Qed.

Lemma row_map2_nonneg f (a b c : list R) :
  (forall x y, 0 <= f x y) ->
  row_map2 f a b = Some c -> Forall (fun z => 0 <= z) c.
Proof.
  intros Hf. unfold row_map2.
  revert b c. induction a as [| x a IH]; intros [| y b] c Hc; simpl in Hc;
    try discriminate.
  - injection Hc as <-. constructor.
  - destruct (map2_exact _ a b) as [c' |] eqn:Hrec; [| discriminate].
    injection Hc as <-. constructor; [apply Hf | now apply IH with (b := b)].
Qed.

Lemma tensor_map2_nonneg f (a b c : Tensor) :
  (forall x y, 0 <= f x y) ->
  tensor_map2 f a b = Some c -> 0 <= tsum c.
Proof.
  intros Hf. unfold tensor_map2, tsum.
  revert b c. induction a as [| x a IH]; intros [| y b] c Hc; simpl in Hc;
    try discriminate.
  - injection Hc as <-. simpl. lra.
  - destruct (row_map2 f x y) as [z |] eqn:Hrow; [| discriminate].
    destruct (map2_exact _ a b) as [c' |] eqn:Hrec; [| discriminate].
    injection Hc as <-. simpl.
    apply Rplus_le_le_0_compat.
    + exact (rsum_nonneg (row_map2_nonneg _ _ _ Hf Hrow)).
    + exact (IH _ _ Hrec).
Qed.

Lemma mse_loss_nonneg output target loss :
  mse_loss output target = Ok loss -> 0 <= loss.
Proof.
  unfold mse_loss.
  destruct (tensor_map2 _ output target) as [sq |] eqn:Hsq; [| discriminate].
  intros Heq. injection Heq as <-.
  assert (Hsum : 0 <= tsum sq).
  { eapply tensor_map2_nonneg; [| exact Hsq]. intros x y. exact (Rle_0_sqr (x - y)). }
  destruct (numel sq) as [| n] eqn:Hn.
  - simpl. unfold Rdiv. rewrite Rinv_0. lra.
  - apply Rmult_le_pos; [exact Hsum |].
    left. apply Rinv_0_lt_compat. apply lt_0_INR. lia.
Qed.

Lemma row_map2_self f (a : list R) :
  row_map2 f a a = Some (map (fun x => f x x) a).
Proof.
  unfold row_map2. induction a as [| x a IH]; simpl; [reflexivity |].
  now rewrite IH.
Qed.

Lemma tensor_map2_self f (t : Tensor) :
  tensor_map2 f t t = Some (map (map (fun x => f x x)) t).
Proof.
  unfold tensor_map2. induction t as [| row t IH]; simpl; [reflexivity |].
  now rewrite row_map2_self, IH.
Qed.

Lemma mse_loss_self (t : Tensor) : mse_loss t t = Ok 0.
Proof.
  unfold mse_loss. rewrite tensor_map2_self. f_equal.
  assert (Hz : tsum (map (map (fun x => (x - x) * (x - x))) t) = 0).
  { unfold tsum. induction t as [| row t IH]; simpl; [reflexivity |].
    rewrite IH.
    assert (Hrow : rsum (map (fun x => (x - x) * (x - x)) row) = 0).
    { induction row as [| x row IHr]; simpl; [reflexivity |].
      rewrite IHr. ring. }
    rewrite Hrow. ring. }
  rewrite Hz. unfold Rdiv. apply Rmult_0_l.
Qed.

Lemma rsum_zeros (l : list R) : Forall (fun x => x = 0) l -> rsum l = 0.
Proof. induction 1; simpl; lra. Qed.

Section RegressorPredict.

Context {E : Type} `{EvalMode E}.

Lemma batch_mse_nonneg (rt : Runtime E) b loss :
  batch_mse rt b = Ok loss -> 0 <= loss.
Proof.
  unfold batch_mse.
  destruct (fst (FusionRegressor.forward (fst (snd b)) rt)) as [P | e];
    simpl; [| discriminate].
  apply mse_loss_nonneg.
Qed.

Lemma losses_of_batches {A} (g : A -> res R) (P : R -> Prop) xs losses :
  (forall x l, In x xs -> g x = Ok l -> P l) ->
  res_all (map g xs) = Ok losses -> Forall P losses.
Proof.
  intros Hg Hall. apply res_all_Forall2 in Hall.
  induction Hall; constructor.
  - apply (Hg x); [now left | assumption].
  - apply IHHall. intros x0 l0 Hin. apply Hg. now right.
Qed.

(** C3.  When no batch raises, [FusionRegressor.predict] returns the sum of
    the per-batch mean squared errors divided by the number of batches (one
    loss per batch, whatever the batch sizes); the result is >= 0, and it is
    0 when the averaged prediction equals the target on every batch.  The
    targets have at least one column, so that every per-batch mean is a
    mean over at least one entry. *)
Theorem regressor_predict_mse loader (rt : Runtime E) losses :
  (0 < n_outputs (self rt))%nat ->
  (0 < len loader)%nat ->
  res_all (map (batch_mse (evaluating rt)) (enumerate (iter loader)))
  = Ok losses ->
  let mse := rsum losses / INR (len loader) in
  fst (FusionRegressor.predict loader rt) = Ok mse /\
  length losses = len loader /\
  0 <= mse /\
  (Forall (fun b =>
             fst (FusionRegressor.forward (fst (snd b)) (evaluating rt))
             = Ok (snd (snd b)))
          (enumerate (iter loader)) ->
   mse = 0).
Proof.
  intros Hwidth Hlen Hall mse.
  assert (Hpos : 0 < INR (len loader)) by now apply lt_0_INR.
  split; [| split; [| split]].
  - rewrite regressor_predict_eval. simpl. rewrite Hall. simpl.
    destruct (len loader =? 0)%nat eqn:Hz; [| reflexivity].
    apply Nat.eqb_eq in Hz. lia.
  - apply res_all_Forall2, Forall2_length in Hall.
    rewrite <- Hall, enumerate_length. unfold iter, len. apply length_map.
  - apply Rmult_le_pos; [| left; now apply Rinv_0_lt_compat].
    apply rsum_nonneg.
    eapply losses_of_batches; [| exact Hall].
    intros x l _. apply batch_mse_nonneg.
  - intros Hexact. unfold mse.
    rewrite rsum_zeros; [unfold Rdiv; apply Rmult_0_l |].
    eapply losses_of_batches; [| exact Hall].
    intros x l Hin. rewrite Forall_forall in Hexact.
    unfold batch_mse. rewrite (Hexact x Hin). simpl.
    rewrite mse_loss_self. congruence.
Qed.

End RegressorPredict.

(** ** The two evaluation stages together *)

Section Predict.

Context {E : Type} `{EvalMode E}.

Lemma evaluating_twice (rt : Runtime E) :
  evaluating (evaluating rt) = evaluating rt.
Proof.
  unfold evaluating, with_self, set_mode. simpl. do 2 f_equal.
  rewrite map_map. apply map_ext. intros e. apply train_train.
Qed.

(** C7.  A second [predict] on the ensemble as the first one left it, with
    the same test loader, returns the same result, for the classifier and
    for the regressor: in evaluation mode the estimators apply no
    stochastic operation, and all that [predict] changes of the ensemble is
    the switch to evaluation mode. *)
Theorem predict_twice_same_result
  (cl : DataLoader (list R) Z) (rg : DataLoader (list R) (list R))
  (rt : Runtime E) :
  let c1 := FusionClassifier.predict cl rt in
  let c2 := FusionClassifier.predict cl (snd c1) in
  let r1 := FusionRegressor.predict rg rt in
  let r2 := FusionRegressor.predict rg (snd r1) in
  (fst c2 = fst c1 /\ snd c2 = snd c1 /\ snd c1 = evaluating rt) /\
  (fst r2 = fst r1 /\ snd r2 = snd r1 /\ snd r1 = evaluating rt).
Proof.
  cbv zeta.
  rewrite !classifier_predict_eval, !regressor_predict_eval. simpl.
  rewrite !evaluating_twice. repeat split.
Qed.

Lemma empty_dataset_no_batch {X Y} (loader : DataLoader X Y) :
  dataset loader = [] -> batches loader = [].
Proof. unfold batches. intros ->. reflexivity. Qed.

(** C9.  [FusionRegressor.predict] divides by the number of batches: with no
    batch it raises [ZeroDivisionError], with at least one batch (and no
    batch raising) the divisor is not zero and the quotient is returned.
    [FusionClassifier.predict] divides by the length of the dataset: with an
    empty dataset it raises [ZeroDivisionError], with a non-empty one (and
    no batch raising) the divisor is not zero and the quotient is
    returned. *)
Theorem predict_divisors
  (cl : DataLoader (list R) Z) (rg : DataLoader (list R) (list R))
  (rt : Runtime E) :
  (len rg = 0%nat ->
   fst (FusionRegressor.predict rg rt) = Err ZeroDivisionError) /\
  ((0 < len rg)%nat ->
   forall losses,
     res_all (map (batch_mse (evaluating rt)) (enumerate (iter rg)))
     = Ok losses ->
     INR (len rg) <> 0 /\
     fst (FusionRegressor.predict rg rt) = Ok (rsum losses / INR (len rg))) /\
  (dataset cl = [] ->
   fst (FusionClassifier.predict cl rt) = Err ZeroDivisionError) /\
  (dataset cl <> [] ->
   forall hits,
     res_all (map (batch_hits (evaluating rt)) (enumerate (iter cl)))
     = Ok hits ->
     INR (length (dataset cl)) <> 0 /\
     fst (FusionClassifier.predict cl rt)
     = Ok (100 * INR (list_sum hits) / INR (length (dataset cl)))).
Proof.
  split; [| split; [| split]].
  - intros Hz. rewrite regressor_predict_eval. simpl.
    unfold iter. unfold len in Hz. apply length_zero_iff_nil in Hz.
    rewrite Hz. simpl. unfold len. now rewrite Hz.
  - intros Hpos losses Hall. split.
    + apply not_0_INR. lia.
    + rewrite regressor_predict_eval. simpl. rewrite Hall. simpl.
      destruct (len rg =? 0)%nat eqn:Hz; [| reflexivity].
      apply Nat.eqb_eq in Hz. lia.
  - intros Hempty. rewrite classifier_predict_eval. simpl.
    unfold iter. rewrite (empty_dataset_no_batch cl Hempty). simpl.
    now rewrite Hempty.
  - intros Hne hits Hall.
    assert (Hlen : (0 < length (dataset cl))%nat).
    { destruct (dataset cl); [congruence | simpl; lia]. }
    split.
    + apply not_0_INR. lia.
    + rewrite classifier_predict_eval. simpl. rewrite Hall. simpl.
      destruct (length (dataset cl) =? 0)%nat eqn:Hz; [| reflexivity].
      apply Nat.eqb_eq in Hz. lia.
Qed.

End Predict.

(** ** The training stage: construction, frame *)

Section Fit.

Context {E OC OR : Type} `{Estimator E}
        `{Optimizer E (list Z) OC} `{Optimizer E Tensor OR}.

Variable base_estimator : nat -> E.
Variable decide_classes : DataLoader (list R) Z -> bool -> res nat.
Variable decide_width : DataLoader (list R) (list R) -> bool -> res nat.

Let classifier_fit :=
  FusionClassifier.fit (O := OC) base_estimator decide_classes.
Let regressor_fit :=
  FusionRegressor.fit (O := OR) base_estimator decide_width.

Lemma constructed_length n (rt : Runtime E) :
  length (estimators_ (self (constructed base_estimator n rt)))
  = (length (estimators_ (self rt)) + n)%nat.
Proof. simpl. now rewrite length_app, length_map, length_seq. Qed.

(** C5, as the code has it.  The collection is empty until [fit] is called;
    the construction loop of [fit] invokes the factory exactly
    [n_estimators] times and appends the fresh instances in the order the
    factory gave them; and every call of [fit], whatever its outcome, leaves
    the collection longer by [n_estimators] than it found it, so that it
    holds [n_estimators] estimators after the first call on a new
    ensemble. *)
Theorem fit_appends_n_estimators :
  (forall n dev, estimators_ (init (E := E) n dev) = []) /\
  (forall n (rt : Runtime E),
      make_estimators base_estimator n rt
      = (Ok tt, constructed base_estimator n rt) /\
      estimators_ (self (constructed base_estimator n rt))
      = estimators_ (self rt)
        ++ map base_estimator (seq (factory_calls rt) n) /\
      factory_calls (constructed base_estimator n rt)
      = (factory_calls rt + n)%nat) /\
  (forall loader lr wd epochs kind log_interval (rt : Runtime E),
      let rt' := snd (classifier_fit loader lr wd epochs kind log_interval rt)
      in
      factory_calls rt' = (factory_calls rt + n_estimators (self rt))%nat /\
      length (estimators_ (self rt'))
      = (length (estimators_ (self rt)) + n_estimators (self rt))%nat /\
      (estimators_ (self rt) = [] ->
       length (estimators_ (self rt')) = n_estimators (self rt'))) /\
  (forall loader lr wd epochs kind log_interval (rt : Runtime E),
      let rt' := snd (regressor_fit loader lr wd epochs kind log_interval rt)
      in
      factory_calls rt' = (factory_calls rt + n_estimators (self rt))%nat /\
      length (estimators_ (self rt'))
      = (length (estimators_ (self rt)) + n_estimators (self rt))%nat /\
      (estimators_ (self rt) = [] ->
       length (estimators_ (self rt')) = n_estimators (self rt'))).
Proof.
  split; [reflexivity |]. split; [| split].
  - intros n rt. split; [apply make_estimators_constructed |].
    split; reflexivity.
  - intros loader lr wd epochs kind log_interval rt rt'.
    destruct (classifier_fit_members base_estimator decide_classes
                loader lr wd epochs kind log_interval rt)
      as [[Hn _] [Hlen Hcalls]].
    fold classifier_fit in Hn, Hlen, Hcalls. fold rt' in Hn, Hlen, Hcalls.
    rewrite constructed_length in Hlen. simpl in Hcalls, Hn.
    repeat split; try assumption.
    intros Hempty. rewrite Hlen, Hn, Hempty. reflexivity.
  - intros loader lr wd epochs kind log_interval rt rt'.
    destruct (regressor_fit_members base_estimator decide_width
                loader lr wd epochs kind log_interval rt)
      as [[Hn _] [Hlen Hcalls]].
    fold regressor_fit in Hn, Hlen, Hcalls. fold rt' in Hn, Hlen, Hcalls.
    rewrite constructed_length in Hlen. simpl in Hcalls, Hn.
    repeat split; try assumption.
    intros Hempty. rewrite Hlen, Hn, Hempty. reflexivity.
Qed.

Lemma constructed_frame n (rt : Runtime E) :
  same_frame rt (constructed base_estimator n rt).
Proof. split; reflexivity. Qed.

Lemma evaluating_frame (rt : Runtime E) : same_frame rt (evaluating rt).
Proof. split; reflexivity. Qed.

(** C10, as the code has it.  Whatever the outcome of [fit] or [predict],
    on either ensemble, [n_estimators] and [device] are what they were.
    [fit] changes nothing of the ensemble but the collection of estimators
    (and through it their parameters), [n_outputs] and the train/eval flag,
    which it sets.  [predict] keeps [n_outputs] and the number of
    estimators and clears the train/eval flag; and when a forward pass in
    evaluation mode leaves an estimator alone, the ensemble after [predict]
    is the one before it, switched to evaluation mode. *)
Theorem fit_and_predict_frame :
  (forall loader lr wd epochs kind log_interval (rt : Runtime E),
      same_frame rt
        (snd (classifier_fit loader lr wd epochs kind log_interval rt))) /\
  (forall loader lr wd epochs kind log_interval (rt : Runtime E),
      same_frame rt
        (snd (regressor_fit loader lr wd epochs kind log_interval rt))) /\
  (forall loader (rt : Runtime E),
      let rt' := snd (FusionClassifier.predict loader rt) in
      same_frame rt rt' /\
      n_outputs (self rt') = n_outputs (self rt) /\
      length (estimators_ (self rt')) = length (estimators_ (self rt)) /\
      training (self rt') = false /\
      (EvalMode E -> self rt' = set_mode false (self rt))) /\
  (forall loader (rt : Runtime E),
      let rt' := snd (FusionRegressor.predict loader rt) in
      same_frame rt rt' /\
      n_outputs (self rt') = n_outputs (self rt) /\
      length (estimators_ (self rt')) = length (estimators_ (self rt)) /\
      training (self rt') = false /\
      (EvalMode E -> self rt' = set_mode false (self rt))).
Proof.
  split; [| split; [| split]].
  - intros loader lr wd epochs kind log_interval rt.
    eapply same_frame_trans; [apply constructed_frame |].
    apply (classifier_fit_members base_estimator decide_classes).
  - intros loader lr wd epochs kind log_interval rt.
    eapply same_frame_trans; [apply constructed_frame |].
    apply (regressor_fit_members base_estimator decide_width).
  - intros loader rt rt'.
    destruct (classifier_predict_width loader rt)
      as [[Hframe [Hlen _]] [Hwidth Hmode]].
    fold rt' in Hframe, Hlen, Hwidth, Hmode. simpl in Hlen, Hwidth, Hmode.
    rewrite length_map in Hlen.
    repeat split; try assumption; try apply Hframe.
    intros laws. unfold rt'. now rewrite classifier_predict_eval.
  - intros loader rt rt'.
    destruct (regressor_predict_width loader rt)
      as [[Hframe [Hlen _]] [Hwidth Hmode]].
    fold rt' in Hframe, Hlen, Hwidth, Hmode. simpl in Hlen, Hwidth, Hmode.
    rewrite length_map in Hlen.
    repeat split; try assumption; try apply Hframe.
    intros laws. unfold rt'. now rewrite regressor_predict_eval.
Qed.

End Fit.

(** * Worked runs *)

Import Scenario.

#[export] Instance const_eval_mode : EvalMode ConstEstimator.
Proof.
  split.
  - reflexivity.
  - reflexivity.
  - reflexivity.
Qed.

Ltac settle_comparisons :=
  repeat match goal with
  | |- context [Rlt_dec ?a ?b] =>
      destruct (Rlt_dec a b) as [?Hlt | ?Hge];
      [ try (exfalso; lra) | try (exfalso; apply Hge; lra) ]
  end.

(** The averaged output of the three voters on a batch of two examples is
    [1, 0] on every row, its softmax gives class 0 the larger share, and
    the predicted class is 0. *)
Lemma three_votes_forward :
  fst (FusionClassifier._forward [[5]; [7]] (evaluating three_votes))
  = Ok [[1; 0]; [1; 0]].
Proof. cbn. repeat f_equal; lra. Qed.

Lemma three_votes_forward_one :
  fst (FusionClassifier._forward [[9]] (evaluating three_votes))
  = Ok [[1; 0]].
Proof. cbn. repeat f_equal; lra. Qed.

Lemma three_votes_predicted_class :
  res_bind (fst (FusionClassifier.forward [[5]; [7]] (evaluating three_votes)))
           max1_indices
  = Ok [0%nat; 0%nat].
Proof.
  rewrite classifier_forward_result, three_votes_forward.
  cbv [res_map res_bind].
  rewrite max1_indices_softmax. cbn.
  settle_comparisons. reflexivity.
Qed.

Lemma batch_hits_unfold {E} `{Estimator E} (rt : Runtime E) i data target :
  batch_hits rt (i, (data, target))
  = res_bind (res_map softmax (fst (FusionClassifier._forward data rt)))
             (fun output => count_correct output target).
Proof. unfold batch_hits. simpl. now rewrite classifier_forward_result. Qed.

Lemma three_votes_hits second drop :
  res_all (map (batch_hits (evaluating three_votes))
               (enumerate (iter (class_loader second drop))))
  = Ok ((if (second =? 0)%Z then 2%nat else 1%nat)
        :: (if drop then [] else [1%nat])).
Proof.
  assert (Hfirst :
    batch_hits (evaluating three_votes) (0%nat, ([[5]; [7]], [0%Z; second]))
    = Ok (if (second =? 0)%Z then 2%nat else 1%nat)).
  { rewrite batch_hits_unfold, three_votes_forward.
    cbv [res_map res_bind].
    rewrite count_correct_softmax. cbn.
    settle_comparisons. change (Z.of_nat 0) with 0%Z.
    rewrite (Z.eqb_sym 0 second). now destruct (second =? 0)%Z. }
  assert (Hlast :
    batch_hits (evaluating three_votes) (1%nat, ([[9]], [0%Z])) = Ok 1%nat).
  { rewrite batch_hits_unfold, three_votes_forward_one.
    cbv [res_map res_bind].
    rewrite count_correct_softmax. cbn.
    settle_comparisons. reflexivity. }
  destruct drop; cbn [class_loader iter batches batch_sampler enumerate
    dataset batch_size drop_last app length Nat.eqb Nat.ltb Nat.leb negb andb
    map collate fst snd seq combine res_all];
    unfold collate; cbn [map fst snd];
    rewrite Hfirst; try rewrite Hlast; reflexivity.
Qed.

Lemma batch_mse_unfold {E} `{Estimator E} (rt : Runtime E) i data target :
  batch_mse rt (i, (data, target))
  = res_bind (fst (FusionRegressor.forward data rt))
             (fun output => mse_loss output target).
Proof. reflexivity. Qed.

(** The averaged prediction of the two regressors is [3.0] on every row. *)
Lemma two_regressors_forward :
  fst (FusionRegressor.forward [[5]; [7]] (evaluating two_regressors))
  = Ok [[3]; [3]].
Proof. cbn. repeat f_equal; lra. Qed.

Lemma two_regressors_forward_one :
  fst (FusionRegressor.forward [[9]] (evaluating two_regressors))
  = Ok [[3]].
Proof. cbn. repeat f_equal; lra. Qed.

Lemma two_regressors_losses second :
  res_all (map (batch_mse (evaluating two_regressors))
               (enumerate (iter (value_loader second))))
  = Ok [(3 - second) * (3 - second) / 2; 0].
Proof.
  assert (Hfirst :
    batch_mse (evaluating two_regressors)
              (0%nat, ([[5]; [7]], [[3]; [second]]))
    = Ok ((3 - second) * (3 - second) / 2)).
  { rewrite batch_mse_unfold, two_regressors_forward.
    cbn. f_equal. lra. }
  assert (Hlast :
    batch_mse (evaluating two_regressors) (1%nat, ([[9]], [[3]])) = Ok 0).
  { rewrite batch_mse_unfold, two_regressors_forward_one.
    cbn. f_equal. lra. }
  cbn [value_loader iter batches batch_sampler enumerate
    dataset batch_size drop_last app length Nat.eqb Nat.ltb Nat.leb negb andb
    map fst snd seq combine res_all].
  unfold collate; cbn [map fst snd].
  rewrite Hfirst, Hlast. reflexivity.
Qed.

(** The regressor's metric on three examples in batches of two and one:
    the mean of the two per-batch means is 1, where the mean over the three
    examples at once is 4/3. *)
Lemma batch_mean_is_not_global_mean :
  fst (FusionRegressor.predict (value_loader 5) two_regressors) = Ok 1 /\
  res_bind
    (fst (FusionRegressor.forward [[5]; [7]; [9]] (evaluating two_regressors)))
    (fun output => mse_loss output [[3]; [5]; [3]])
  = Ok (4 / 3) /\
  1 <> 4 / 3.
Proof.
  split; [| split; [| lra]].
  - rewrite regressor_predict_eval. cbn [fst].
    rewrite two_regressors_losses. cbn. f_equal. lra.
  - cbn. f_equal. lra.
Qed.

(** ** The theorems at the scenarios *)

Lemma averaged_forward_is_mean_witness :
  let rt := three_votes in
  let X := [[5]; [7]] in
  let outs := repeat [[1; 0]; [1; 0]] 3 in
  (1 <= n_estimators (self rt))%nat /\
  length (estimators_ (self rt)) = n_estimators (self rt) /\
  map (fun e => fst (call e X)) (estimators_ (self rt)) = map Ok outs /\
  Forall (has_shape (length X) (n_outputs (self rt))) outs /\
  exists P,
    fst (FusionClassifier._forward X rt) = Ok P /\
    fst (FusionRegressor.forward X rt) = Ok P /\
    has_shape (length X) (n_outputs (self rt)) P /\
    (forall r k,
        entry P r k
        = 1 / INR (length outs) * rsum (map (fun o => entry o r k) outs)) /\
    (forall vs,
        outs = map (fun v => repeat v (length X)) vs ->
        forall r k, (r < length X)%nat ->
          entry P r k
          = rsum (map (fun v => nth k v 0) vs) / INR (length vs)).
Proof.
  intros rt X outs.
  assert (H1 : (1 <= n_estimators (self rt))%nat) by (simpl; lia).
  assert (H2 : length (estimators_ (self rt)) = n_estimators (self rt))
    by reflexivity.
  assert (H3 : map (fun e => fst (call e X)) (estimators_ (self rt))
               = map Ok outs) by reflexivity.
  assert (H4 : Forall (has_shape (length X) (n_outputs (self rt))) outs).
  { repeat constructor. }
  exact (conj H1 (conj H2 (conj H3 (conj H4
           (@averaged_forward_is_mean _ _ rt X outs H1 H2 H3 H4))))).
Defined.

Lemma forward_rows_are_distributions_witness :
  let rt := evaluating three_votes in
  let X := [[5]; [7]] in
  let proba := softmax [[1; 0]; [1; 0]] in
  (0 < n_outputs (self rt))%nat /\
  fst (FusionClassifier.forward X rt) = Ok proba /\
  length proba = length X /\
  Forall (fun row =>
            length row = n_outputs (self rt) /\
            Forall (fun p => 0 <= p) row /\
            rsum row = 1) proba.
Proof.
  intros rt X proba.
  assert (H1 : (0 < n_outputs (self rt))%nat) by (simpl; lia).
  assert (H2 : fst (FusionClassifier.forward X rt) = Ok proba).
  { unfold rt, X. now rewrite classifier_forward_result, three_votes_forward. }
  exact (conj H1 (conj H2
           (@forward_rows_are_distributions _ _ rt X proba H1 H2))).
Defined.


Lemma regressor_predict_mse_witness :
  let loader := value_loader 5 in
  let rt := two_regressors in
  let losses := [(3 - 5) * (3 - 5) / 2; 0] in
  let mse := rsum losses / INR (len loader) in
  (0 < n_outputs (self rt))%nat /\
  (0 < len loader)%nat /\
  res_all (map (batch_mse (evaluating rt)) (enumerate (iter loader)))
  = Ok losses /\
  fst (FusionRegressor.predict loader rt) = Ok mse /\
  length losses = len loader /\
  0 <= mse /\
  (Forall (fun b =>
             fst (FusionRegressor.forward (fst (snd b)) (evaluating rt))
             = Ok (snd (snd b)))
          (enumerate (iter loader)) ->
   mse = 0).
Proof.
  intros loader rt losses mse.
  assert (H1 : (0 < n_outputs (self rt))%nat) by (simpl; lia).
  assert (H2 : (0 < len loader)%nat) by (cbn; lia).
  assert (H3 : res_all (map (batch_mse (evaluating rt))
                            (enumerate (iter loader))) = Ok losses)
    by exact (two_regressors_losses 5).
  exact (conj H1 (conj H2 (conj H3
           (@regressor_predict_mse _ _ _ loader rt losses H1 H2 H3)))).
Defined.

Lemma predict_twice_same_result_witness :
  EvalMode ConstEstimator /\
  let cl := class_loader 1 false in
  let rg := value_loader 5 in
  let c1 := FusionClassifier.predict cl three_votes in
  let c2 := FusionClassifier.predict cl (snd c1) in
  let r1 := FusionRegressor.predict rg two_regressors in
  let r2 := FusionRegressor.predict rg (snd r1) in
  (fst c2 = fst c1 /\ snd c2 = snd c1 /\ snd c1 = evaluating three_votes) /\
  (fst r2 = fst r1 /\ snd r2 = snd r1 /\ snd r1 = evaluating two_regressors).
Proof.
  split; [exact const_eval_mode |].
  intros cl rg.
  split.
  - exact (proj1 (@predict_twice_same_result _ _ const_eval_mode
                    cl rg three_votes)).
  - exact (proj2 (@predict_twice_same_result _ _ const_eval_mode
                    cl rg two_regressors)).
Defined.

Lemma predict_divisors_witness :
  EvalMode ConstEstimator /\
  fst (FusionRegressor.predict no_example two_regressors)
  = Err ZeroDivisionError /\
  fst (FusionClassifier.predict no_example three_votes)
  = Err ZeroDivisionError /\
  (INR (len (value_loader 5)) <> 0 /\
   fst (FusionRegressor.predict (value_loader 5) two_regressors)
   = Ok (rsum [(3 - 5) * (3 - 5) / 2; 0] / INR (len (value_loader 5)))) /\
  (INR (length (dataset (class_loader 1 false))) <> 0 /\
   fst (FusionClassifier.predict (class_loader 1 false) three_votes)
   = Ok (100 * INR (list_sum [1%nat; 1%nat])
         / INR (length (dataset (class_loader 1 false))))).
Proof.
  split; [exact const_eval_mode |].
  pose proof (@predict_divisors _ _ const_eval_mode
                no_example no_example two_regressors) as [Hr0 _].
  pose proof (@predict_divisors _ _ const_eval_mode
                no_example no_example three_votes) as [_ [_ [Hc0 _]]].
  pose proof (@predict_divisors _ _ const_eval_mode
                (class_loader 1 false) (value_loader 5) two_regressors)
    as [_ [Hr _]].
  pose proof (@predict_divisors _ _ const_eval_mode
                (class_loader 1 false) (value_loader 5) three_votes)
    as [_ [_ [_ Hc]]].
  split; [exact (Hr0 eq_refl) |].
  split; [exact (Hc0 eq_refl) |].
  split.
  - apply Hr; [cbn; lia | exact (two_regressors_losses 5)].
  - apply Hc; [discriminate | exact (three_votes_hits 1 false)].
Defined.

(** ** Runs of [fit] *)

(** C1, at a failing input.  On a new ensemble of three estimators,
    [FusionClassifier.fit] with [epochs = 0] and [FusionRegressor.fit] with
    [lr = 0] (the other arguments at their defaults) do raise the
    validation error and log nothing, but only after the three estimators
    have been constructed and appended, [n_outputs] has been set and the
    optimizer has been built: the collection that was empty holds three
    estimators when the exception reaches the caller. *)
Theorem fit_validates_after_construction :
  let rt := fresh_runtime (init 3 "cpu") in
  let c :=
    classifier_fit_of [1; 0] 2 (class_loader 0 false)
      (1 / 1000) (5 / 10000) 0 "Adam" 100 rt in
  let r :=
    regressor_fit_of [3] 1 (value_loader 3)
      0 (5 / 10000) 100 "Adam" 100 rt in
  estimators_ (self rt) = [] /\ n_outputs (self rt) = 0%nat /\
  factory_calls rt = 0%nat /\
  (fst c = Err ValueError /\
   estimators_ (self (snd c)) = repeat (mkConst [1; 0] true) 3 /\
   n_outputs (self (snd c)) = 2%nat /\
   factory_calls (snd c) = 3%nat /\
   stdout (snd c) = []) /\
  (fst r = Err ValueError /\
   estimators_ (self (snd r)) = repeat (mkConst [3] true) 3 /\
   n_outputs (self (snd r)) = 1%nat /\
   factory_calls (snd r) = 3%nat /\
   stdout (snd r) = []).
Proof.
  intros rt c r.
  assert (Hc : c = (Err ValueError,
                    prepared (constant_factory [1; 0]) 2 rt)).
  { unfold c, classifier_fit_of.
    apply classifier_fit_rejects with (opt := tt); try reflexivity.
    intros [_ [_ [Hepochs _]]]. lia. }
  assert (Hr : r = (Err ValueError,
                    prepared (constant_factory [3]) 1 rt)).
  { unfold r, regressor_fit_of.
    apply regressor_fit_rejects with (opt := tt); try reflexivity.
    intros [Hlr _]. lra. }
  rewrite Hc, Hr. repeat split.
Qed.

(** C5 as stated fails on a second call: two calls of [fit] with the
    default arguments on a new ensemble of two estimators leave four
    estimators in the collection. *)
Lemma second_fit_doubles_estimators :
  let fit :=
    classifier_fit_of [1; 0] 2 (class_loader 0 false)
      (1 / 1000) (5 / 10000) 100 "Adam" 100 in
  let rt0 := fresh_runtime (init 2 "cpu") in
  let rt1 := snd (fit rt0) in
  let rt2 := snd (fit rt1) in
  length (estimators_ (self rt1)) = 2%nat /\
  length (estimators_ (self rt2)) = 4%nat /\
  n_estimators (self rt2) = 2%nat /\
  length (estimators_ (self rt2)) <> n_estimators (self rt2).
Proof.
  intros fit rt0 rt1 rt2.
  destruct (classifier_fit_members (O := unit) (constant_factory [1; 0])
              (fixed_outputs 2) (class_loader 0 false)
              (1 / 1000) (5 / 10000) 100 "Adam" 100 rt0)
    as [[Hn1 _] [Hlen1 _]].
  fold (classifier_fit_of [1; 0] 2) in Hn1, Hlen1.
  fold fit in Hn1, Hlen1. fold rt1 in Hn1, Hlen1.
  destruct (classifier_fit_members (O := unit) (constant_factory [1; 0])
              (fixed_outputs 2) (class_loader 0 false)
              (1 / 1000) (5 / 10000) 100 "Adam" 100 rt1)
    as [[Hn2 _] [Hlen2 _]].
  fold (classifier_fit_of [1; 0] 2) in Hn2, Hlen2.
  fold fit in Hn2, Hlen2. fold rt2 in Hn2, Hlen2.
  simpl in Hn1, Hlen1, Hn2.
  rewrite constructed_length, Hn1, Hlen1 in Hlen2. simpl in Hlen2.
  rewrite Hn1 in Hn2.
  repeat split; try assumption. rewrite Hlen2, Hn2. discriminate.
Qed.

Lemma fit_appends_n_estimators_witness :
  let rt := fresh_runtime (init 2 "cpu") in
  let rt' :=
    snd (classifier_fit_of [1; 0] 2 (class_loader 0 false)
           (1 / 1000) (5 / 10000) 100 "Adam" 100 rt) in
  estimators_ (self rt) = [] /\
  factory_calls rt' = 2%nat /\
  length (estimators_ (self rt')) = 2%nat /\
  length (estimators_ (self rt')) = n_estimators (self rt').
Proof.
  intros rt rt'.
  destruct (@fit_appends_n_estimators ConstEstimator unit unit _ _ _
              (constant_factory [1; 0]) (fixed_outputs 2) (fixed_outputs 1))
    as [_ [_ [Hfit _]]].
  destruct (Hfit (class_loader 0 false) (1 / 1000) (5 / 10000) 100%Z
              "Adam"%string 100%Z rt) as [Hcalls [Hlen Hfirst]].
  split; [reflexivity |].
  split; [exact Hcalls |].
  split; [exact Hlen | exact (Hfirst eq_refl)].
Defined.

(** C10 as stated fails on the mode flag: [fit] on an ensemble that is in
    evaluation mode leaves it in train mode. *)
Lemma fit_sets_train_mode :
  let rt := evaluating (fresh_runtime (init 1 "cpu")) in
  let rt' :=
    snd (classifier_fit_of [1; 0] 2 (class_loader 0 false)
           (1 / 1000) (5 / 10000) 100 "Adam" 100 rt) in
  training (self rt) = false /\ training (self rt') = true.
Proof.
  intros rt rt'. split; [reflexivity |].
  assert (Htrains :
    same_width (prepared (constant_factory [1; 0]) 2 rt) rt').
  { unfold rt', classifier_fit_of.
    apply classifier_fit_trains with (opt := tt); reflexivity. }
  destruct Htrains as [_ [_ Hmode]]. exact Hmode.
Qed.

Lemma fit_and_predict_frame_witness :
  let rt := three_votes in
  let rt' := snd (FusionClassifier.predict (class_loader 1 false) rt) in
  same_frame rt rt' /\
  n_outputs (self rt') = n_outputs (self rt) /\
  self rt' = set_mode false (self rt).
Proof.
  intros rt rt'.
  destruct (@fit_and_predict_frame ConstEstimator unit unit _ _ _
              (constant_factory [1; 0]) (fixed_outputs 2) (fixed_outputs 1))
    as [_ [_ [Hpredict _]]].
  destruct (Hpredict (class_loader 1 false) rt)
    as [Hframe [Hwidth [_ [_ Hself]]]].
  split; [exact Hframe |].
  split; [exact Hwidth | exact (Hself const_eval_mode)].
Defined.


(** * Further properties of the forward pass *)

Lemma softmax_row_zeros n :
  (0 < n)%nat -> softmax_row (repeat 0 n) = repeat (1 / INR n) n.
Proof.
  intros Hn. unfold softmax_row.
  assert (Hsum : rsum (map exp (repeat 0 n)) = INR n).
  { clear Hn. induction n as [| n IH]; [reflexivity |].
    cbn [repeat map rsum fold_right]. fold (rsum (map exp (repeat 0 n))).
    rewrite IH, exp_0, S_INR. ring. }
  rewrite Hsum, map_repeat. now rewrite exp_0.
Qed.

Section EmptyEnsemble.

Context {E : Type} `{Estimator E}.

(** X1.  On an ensemble that holds no estimator (as before [fit]) the
    forward passes raise nothing and leave the runtime as it is:
    [FusionClassifier._forward] and [FusionRegressor.forward] return the
    zero tensor of shape (batch size, n_outputs), and, with at least one
    class, [FusionClassifier.forward] returns the uniform distribution
    [1 / n_outputs] on every row. *)
Theorem forward_without_estimators (rt : Runtime E) X :
  estimators_ (self rt) = [] ->
  FusionClassifier._forward X rt
  = (Ok (zeros (length X) (n_outputs (self rt))), rt) /\
  FusionRegressor.forward X rt
  = (Ok (zeros (length X) (n_outputs (self rt))), rt) /\
  ((0 < n_outputs (self rt))%nat ->
   FusionClassifier.forward X rt
   = (Ok (uniform (length X) (n_outputs (self rt))), rt)).
Proof.
  intros Hempty.
  assert (Hrt : with_self (set_estimators []) rt = rt).
  { destruct rt as [[ne dv no es tr] fc out]. simpl in Hempty. now subst. }
  assert (Hraw : FusionClassifier._forward X rt
                 = (Ok (zeros (length X) (n_outputs (self rt))), rt)).
  { unfold FusionClassifier._forward. rewrite Hempty. simpl. now rewrite Hrt. }
  split; [exact Hraw |]. split.
  - unfold FusionRegressor.forward. rewrite Hempty. simpl. now rewrite Hrt.
  - intros Hpos. unfold FusionClassifier.forward, bind. rewrite Hraw.
    unfold ret. f_equal. f_equal.
    unfold softmax, zeros, uniform. rewrite map_repeat.
    now rewrite softmax_row_zeros.
Qed.

End EmptyEnsemble.

(** ** Where the forward pass stops *)

Lemma row_map2_same_length f (a b c : list R) :
  row_map2 f a b = Some c -> length a = length b.
Proof.
  intros Hc. destruct (map2_exact_length _ _ _ Hc) as [Ha Hb]. congruence.
Qed.

Lemma tensor_map2_same_lengths f (a b c : Tensor) :
  tensor_map2 f a b = Some c -> map (@length R) a = map (@length R) b.
Proof.
  unfold tensor_map2.
  revert b c. induction a as [| x a IH]; intros [| y b] c Hc; simpl in Hc;
    try discriminate.
  - reflexivity.
  - destruct (row_map2 f x y) as [z |] eqn:Hrow; [| discriminate].
    destruct (map2_exact _ a b) as [c' |] eqn:Hrec; [| discriminate].
    simpl. rewrite (row_map2_same_length _ _ _ Hrow).
    f_equal. exact (IH _ _ Hrec).
Qed.

Lemma tdiv_lengths t n : map (@length R) (tdiv t n) = map (@length R) t.
Proof.
  unfold tdiv. rewrite map_map. apply map_ext. intros r. apply length_map.
Qed.

Lemma iadd_mismatch rows cols (acc o : Tensor) n :
  has_shape rows cols acc -> ~ has_shape rows cols o ->
  iadd acc (tdiv o n) = Err ShapeMismatch.
Proof.
  intros Hacc Ho. unfold iadd.
  destruct (tensor_map2 Rplus acc (tdiv o n)) as [c |] eqn:Hc;
    [| reflexivity].
  exfalso. apply Ho. apply has_shape_lengths.
  rewrite <- (tdiv_lengths o n).
  rewrite <- (tensor_map2_same_lengths _ _ _ Hc).
  now apply has_shape_lengths.
Qed.

Section ForwardStops.

Context {E : Type} `{Estimator E}.

Lemma average_loop_stops n X rows cols (before after : list E) e x :
  forall outs acc,
    map (fun e0 => fst (call e0 X)) before = map Ok outs ->
    Forall (has_shape rows cols) outs ->
    has_shape rows cols acc ->
    (forall acc', has_shape rows cols acc' ->
       res_bind (fst (call e X)) (fun o => iadd acc' (tdiv o n)) = Err x) ->
    average_loop n X (before ++ e :: after) acc
    = (Err x,
       map (fun e0 => snd (call e0 X)) before ++ snd (call e X) :: after).
Proof.
  induction before as [| b before IH]; intros outs acc Houts Hshapes Hacc Hx.
  - simpl. specialize (Hx acc Hacc).
    destruct (call e X) as [out e']. simpl in *. now rewrite Hx.
  - destruct outs as [| o outs]; [discriminate |].
    simpl in Houts. injection Houts as Ho Hrest.
    inversion Hshapes as [| ? ? Hso Hsouts]; subst.
    simpl. destruct (call b X) as [out b']. simpl in Ho. subst out. simpl.
    destruct (iadd_ok Hacc (tdiv_shape n Hso)) as [acc' [Hadd [Hs' _]]].
    rewrite Hadd.
    rewrite (IH outs acc' Hrest Hsouts Hs' Hx). reflexivity.
Qed.

(** X2.  The forward passes stop at the first estimator that raises: when
    the estimators before it return tensors of shape (batch size,
    n_outputs), the exception of that estimator is the outcome of
    [FusionClassifier._forward], [FusionClassifier.forward] and
    [FusionRegressor.forward]; the estimators up to it are as their call
    left them and the estimators after it have not been called. *)
Theorem forward_stops_at_raising_estimator
  (rt : Runtime E) X before e after outs x :
  estimators_ (self rt) = before ++ e :: after ->
  map (fun e0 => fst (call e0 X)) before = map Ok outs ->
  Forall (has_shape (length X) (n_outputs (self rt))) outs ->
  fst (call e X) = Err x ->
  let rt' :=
    with_self
      (set_estimators
         (map (fun e0 => snd (call e0 X)) before ++ snd (call e X) :: after))
      rt in
  FusionClassifier._forward X rt = (Err x, rt') /\
  FusionClassifier.forward X rt = (Err x, rt') /\
  FusionRegressor.forward X rt = (Err x, rt').
Proof.
  intros Hests Houts Hshapes Hx rt'.
  assert (Hloop :
    average_loop (n_estimators (self rt)) X (estimators_ (self rt))
      (zeros (length X) (n_outputs (self rt)))
    = (Err x,
       map (fun e0 => snd (call e0 X)) before ++ snd (call e X) :: after)).
  { rewrite Hests.
    apply average_loop_stops
      with (rows := length X) (cols := n_outputs (self rt)) (outs := outs);
      try assumption; [apply zeros_shape |].
    intros acc' _. now rewrite Hx. }
  assert (Hraw : FusionClassifier._forward X rt = (Err x, rt')).
  { unfold FusionClassifier._forward. now rewrite Hloop. }
  split; [exact Hraw |]. split.
  - unfold FusionClassifier.forward, bind. now rewrite Hraw.
  - unfold FusionRegressor.forward. now rewrite Hloop.
Qed.

(** X3.  An estimator whose output cannot be broadcast to the shape
    (batch size, n_outputs) -- its number of rows is neither 1 nor the
    batch size, or one of its rows has a width that is neither 1 nor
    [n_outputs] -- makes the forward passes raise the shape-mismatch error
    at the in-place addition, once the estimators before it have been
    added; the estimators after it are not called.  (Outputs with a
    dimension of size one, which the in-place addition of PyTorch
    broadcasts, are not covered.) *)
Theorem forward_rejects_misshapen_output
  (rt : Runtime E) X before e after outs o :
  estimators_ (self rt) = before ++ e :: after ->
  map (fun e0 => fst (call e0 X)) before = map Ok outs ->
  Forall (has_shape (length X) (n_outputs (self rt))) outs ->
  fst (call e X) = Ok o ->
  (length o <> 1%nat /\ length o <> length X) \/
  (exists row, In row o /\
               length row <> 1%nat /\ length row <> n_outputs (self rt)) ->
  let rt' :=
    with_self
      (set_estimators
         (map (fun e0 => snd (call e0 X)) before ++ snd (call e X) :: after))
      rt in
  FusionClassifier._forward X rt = (Err ShapeMismatch, rt') /\
  FusionClassifier.forward X rt = (Err ShapeMismatch, rt') /\
  FusionRegressor.forward X rt = (Err ShapeMismatch, rt').
Proof.
  intros Hests Houts Hshapes Ho Hwide rt'.
  assert (Hbad : ~ has_shape (length X) (n_outputs (self rt)) o).
  { intros [Hrows Hcols]. destruct Hwide as [[_ Hn] | [row [Hin [_ Hw]]]].
    - now apply Hn.
    - rewrite Forall_forall in Hcols. now apply Hw, Hcols. }
  assert (Hloop :
    average_loop (n_estimators (self rt)) X (estimators_ (self rt))
      (zeros (length X) (n_outputs (self rt)))
    = (Err ShapeMismatch,
       map (fun e0 => snd (call e0 X)) before ++ snd (call e X) :: after)).
  { rewrite Hests.
    apply average_loop_stops
      with (rows := length X) (cols := n_outputs (self rt)) (outs := outs);
      try assumption; [apply zeros_shape |].
    intros acc' Hacc'. rewrite Ho. simpl.
    now apply iadd_mismatch with (rows := length X)
                                 (cols := n_outputs (self rt)). }
  assert (Hraw : FusionClassifier._forward X rt = (Err ShapeMismatch, rt')).
  { unfold FusionClassifier._forward. now rewrite Hloop. }
  split; [exact Hraw |]. split.
  - unfold FusionClassifier.forward, bind. now rewrite Hraw.
  - unfold FusionRegressor.forward. now rewrite Hloop.
Qed.

(** X4.  The forward passes divide every output by [n_estimators], not by
    the number of estimators held: an ensemble that holds [k] times
    [n_estimators] estimators (as after [k] calls of [fit]) returns [k]
    times the mean of their outputs, entry by entry. *)
Theorem forward_scales_with_surplus_estimators (rt : Runtime E) X outs k :
  (1 <= n_estimators (self rt))%nat ->
  (1 <= k)%nat ->
  length (estimators_ (self rt)) = (k * n_estimators (self rt))%nat ->
  map (fun e => fst (call e X)) (estimators_ (self rt)) = map Ok outs ->
  Forall (has_shape (length X) (n_outputs (self rt))) outs ->
  exists P,
    fst (FusionClassifier._forward X rt) = Ok P /\
    fst (FusionRegressor.forward X rt) = Ok P /\
    forall r c,
      entry P r c
      = INR k * (rsum (map (fun o => entry o r c) outs) / INR (length outs)).
Proof.
  intros Hn Hk Hlen Houts Hshapes.
  assert (Hcount : length outs = (k * n_estimators (self rt))%nat).
  { rewrite <- Hlen.
    erewrite <- (length_map (@Ok Tensor)), <- Houts. apply length_map. }
  destruct (@forward_mean _ _ rt X outs Houts Hshapes) as [P [Hc [Hr [_ He]]]].
  exists P. repeat split; try assumption.
  intros r c. rewrite He, Hcount, mult_INR.
  assert (INR k <> 0) by (apply not_0_INR; lia).
  assert (INR (n_estimators (self rt)) <> 0) by (apply not_0_INR; lia).
  field. split; assumption.
Qed.

End ForwardStops.

(** * Further properties of the training stage *)

Section FitStages.

Context {E OC OR : Type} `{Estimator E}
        `{Optimizer E (list Z) OC} `{Optimizer E Tensor OR}.

Variable base_estimator : nat -> E.
Variable decide_classes : DataLoader (list R) Z -> bool -> res nat.
Variable decide_width : DataLoader (list R) (list R) -> bool -> res nat.

Let classifier_fit :=
  FusionClassifier.fit (O := OC) base_estimator decide_classes.
Let regressor_fit :=
  FusionRegressor.fit (O := OR) base_estimator decide_width.

Lemma classifier_fit_until_inference loader lr wd epochs kind li
  (rt : Runtime E) :
  classifier_fit loader lr wd epochs kind li rt
  = match decide_classes loader true with
    | Err e =>
        (Err e, constructed base_estimator (n_estimators (self rt)) rt)
    | Ok n =>
        match set_optimizer (self (inferred base_estimator n rt)) kind lr wd
        with
        | Err e => (Err e, inferred base_estimator n rt)
        | Ok opt =>
            (_validate_parameters lr wd epochs li ;;
             classifier_epochs loader epochs li opt ;;
             ret tt) (prepared base_estimator n rt)
        end
    end.
Proof.
  unfold classifier_fit, FusionClassifier.fit.
  unfold bind at 1. unfold get at 1.
  unfold bind at 1. rewrite make_estimators_constructed.
  unfold bind at 1. unfold lift at 1.
  destruct (decide_classes loader true) as [n | e]; [| reflexivity].
  unfold bind at 1. unfold modify at 1.
  unfold bind at 1. unfold get at 1.
  unfold bind at 1. unfold lift at 1. fold (inferred base_estimator n rt).
  destruct (set_optimizer (self (inferred base_estimator n rt)) kind lr wd)
    as [opt | e]; [| reflexivity].
  unfold bind at 1. unfold modify at 1. reflexivity.
Qed.

Lemma regressor_fit_until_inference loader lr wd epochs kind li
  (rt : Runtime E) :
  regressor_fit loader lr wd epochs kind li rt
  = match decide_width loader false with
    | Err e =>
        (Err e, constructed base_estimator (n_estimators (self rt)) rt)
    | Ok n =>
        match set_optimizer (self (inferred base_estimator n rt)) kind lr wd
        with
        | Err e => (Err e, inferred base_estimator n rt)
        | Ok opt =>
            (_validate_parameters lr wd epochs li ;;
             regressor_epochs loader epochs li opt ;;
             ret tt) (prepared base_estimator n rt)
        end
    end.
Proof.
  unfold regressor_fit, FusionRegressor.fit.
  unfold bind at 1. unfold get at 1.
  unfold bind at 1. rewrite make_estimators_constructed.
  unfold bind at 1. unfold lift at 1.
  destruct (decide_width loader false) as [n | e]; [| reflexivity].
  unfold bind at 1. unfold modify at 1.
  unfold bind at 1. unfold get at 1.
  unfold bind at 1. unfold lift at 1. fold (inferred base_estimator n rt).
  destruct (set_optimizer (self (inferred base_estimator n rt)) kind lr wd)
    as [opt | e]; [| reflexivity].
  unfold bind at 1. unfold modify at 1. reflexivity.
Qed.

(** X5.  What [fit] leaves when a collaborator raises.  When the inference
    of the output width raises, [fit] raises the same error with the new
    estimators already appended and nothing else changed; when
    [set_optimizer] raises (an optimizer kind it does not support), [fit]
    raises the same error with the estimators appended and [n_outputs] set,
    before the switch to train mode, the validation of the
    hyper-parameters and any training step. *)
Theorem fit_raises_what_its_collaborators_raise :
  (forall loader lr wd epochs kind li (rt : Runtime E) e,
      decide_classes loader true = Err e ->
      classifier_fit loader lr wd epochs kind li rt
      = (Err e, constructed base_estimator (n_estimators (self rt)) rt)) /\
  (forall loader lr wd epochs kind li (rt : Runtime E) n e,
      decide_classes loader true = Ok n ->
      set_optimizer (O := OC) (self (inferred base_estimator n rt)) kind lr wd
      = Err e ->
      classifier_fit loader lr wd epochs kind li rt
      = (Err e, inferred base_estimator n rt)) /\
  (forall loader lr wd epochs kind li (rt : Runtime E) e,
      decide_width loader false = Err e ->
      regressor_fit loader lr wd epochs kind li rt
      = (Err e, constructed base_estimator (n_estimators (self rt)) rt)) /\
  (forall loader lr wd epochs kind li (rt : Runtime E) n e,
      decide_width loader false = Ok n ->
      set_optimizer (O := OR) (self (inferred base_estimator n rt)) kind lr wd
      = Err e ->
      regressor_fit loader lr wd epochs kind li rt
      = (Err e, inferred base_estimator n rt)).
Proof.
  repeat split.
  - intros loader lr wd epochs kind li rt e He.
    now rewrite classifier_fit_until_inference, He.
  - intros loader lr wd epochs kind li rt n e Hn He.
    now rewrite classifier_fit_until_inference, Hn, He.
  - intros loader lr wd epochs kind li rt e He.
    now rewrite regressor_fit_until_inference, He.
  - intros loader lr wd epochs kind li rt n e Hn He.
    now rewrite regressor_fit_until_inference, Hn, He.
Qed.

(** X6.  For every combination of hyper-parameters that the validation
    rejects (a learning rate that is not positive, a negative weight decay,
    a number of epochs or a logging interval that is not positive), and
    once the inference of the width and [set_optimizer] have succeeded,
    both [fit] methods raise the validation error from the runtime in which
    the estimators are appended, [n_outputs] is set and train mode is on:
    no training step is taken and nothing is printed. *)
Theorem fit_rejects_after_preparing
  loader_c loader_r lr wd epochs kind li (rt : Runtime E) nc nr oc or :
  ~ valid_parameters lr wd epochs li ->
  decide_classes loader_c true = Ok nc ->
  set_optimizer (O := OC) (self (inferred base_estimator nc rt)) kind lr wd
  = Ok oc ->
  decide_width loader_r false = Ok nr ->
  set_optimizer (O := OR) (self (inferred base_estimator nr rt)) kind lr wd
  = Ok or ->
  classifier_fit loader_c lr wd epochs kind li rt
  = (Err ValueError, prepared base_estimator nc rt) /\
  regressor_fit loader_r lr wd epochs kind li rt
  = (Err ValueError, prepared base_estimator nr rt) /\
  stdout (prepared base_estimator nc rt) = stdout rt /\
  stdout (prepared base_estimator nr rt) = stdout rt.
Proof.
  intros Hbad Hnc Hoc Hnr Hor.
  split; [| split; [| split; reflexivity]].
  - rewrite classifier_fit_until_inference, Hnc, Hoc.
    unfold bind at 1. now rewrite validate_rejects.
  - rewrite regressor_fit_until_inference, Hnr, Hor.
    unfold bind at 1. now rewrite validate_rejects.
Qed.

Lemma for_each_ret {S A B} (xs : list A) (body : A -> B -> M S B) :
  (forall x acc s, In x xs -> body x acc s = (Ok acc, s)) ->
  forall acc s, for_each xs body acc s = (Ok acc, s).
Proof.
  induction xs as [| x xs IH]; intros Hbody acc s; simpl; [reflexivity |].
  unfold bind. rewrite Hbody by now left.
  apply IH. intros; apply Hbody; now right.
Qed.

(** X7.  Over a train loader that yields no batch (an empty dataset, or
    fewer examples than one batch with [drop_last]), [fit] with accepted
    hyper-parameters returns normally, whatever the number of epochs,
    having taken no optimizer step and printed nothing: the ensemble holds
    the estimators as the factory made them, switched to train mode. *)
Theorem fit_over_no_batch
  loader_c loader_r lr wd epochs kind li (rt : Runtime E) nc nr oc or :
  valid_parameters lr wd epochs li ->
  len loader_c = 0%nat ->
  len loader_r = 0%nat ->
  decide_classes loader_c true = Ok nc ->
  set_optimizer (O := OC) (self (inferred base_estimator nc rt)) kind lr wd
  = Ok oc ->
  decide_width loader_r false = Ok nr ->
  set_optimizer (O := OR) (self (inferred base_estimator nr rt)) kind lr wd
  = Ok or ->
  classifier_fit loader_c lr wd epochs kind li rt
  = (Ok tt, prepared base_estimator nc rt) /\
  regressor_fit loader_r lr wd epochs kind li rt
  = (Ok tt, prepared base_estimator nr rt).
Proof.
  intros Hvalid Hc Hr Hnc Hoc Hnr Hor.
  assert (Hic : iter loader_c = []).
  { unfold iter. unfold len in Hc. apply length_zero_iff_nil in Hc.
    now rewrite Hc. }
  assert (Hir : iter loader_r = []).
  { unfold iter. unfold len in Hr. apply length_zero_iff_nil in Hr.
    now rewrite Hr. }
  split.
  - rewrite classifier_fit_until_inference, Hnc, Hoc.
    unfold bind at 1. rewrite validate_accepts by assumption.
    unfold classifier_epochs. rewrite Hic. simpl enumerate.
    unfold bind. now rewrite for_each_ret.
  - rewrite regressor_fit_until_inference, Hnr, Hor.
    unfold bind at 1. rewrite validate_accepts by assumption.
    unfold regressor_epochs. rewrite Hir. simpl enumerate.
    unfold bind. now rewrite for_each_ret.
Qed.

End FitStages.

(** ** The console and the factory *)

Lemma keeps_for_each_in {S A B} (Rel : S -> S -> Prop) (xs : list A)
  (body : A -> B -> M S B) :
  (forall s, Rel s s) ->
  (forall a b c, Rel a b -> Rel b c -> Rel a c) ->
  (forall x acc, In x xs -> keeps Rel (body x acc)) ->
  forall acc, keeps Rel (for_each xs body acc).
Proof.
  intros Hrefl Htrans. induction xs as [| x xs IH]; intros Hbody acc; simpl.
  - now apply keeps_ret.
  - apply keeps_bind; [exact Htrans | apply Hbody; now left |].
    intros a. apply IH. intros; apply Hbody; now right.
Qed.

Section Console.

Context {E : Type} `{Estimator E}.

Lemma quiet_refl (rt : Runtime E) : quiet rt rt.
Proof. split; reflexivity. Qed.

Lemma quiet_trans (a b c : Runtime E) : quiet a b -> quiet b c -> quiet a c.
Proof. unfold quiet. intros [? ?] [? ?]. split; congruence. Qed.

Lemma with_self_quiet (f : Ensemble E -> Ensemble E) (rt : Runtime E) :
  quiet rt (with_self f rt).
Proof. split; reflexivity. Qed.

Lemma classifier__forward_quiet X :
  keeps quiet (FusionClassifier._forward (E := E) X).
Proof.
  intros rt. unfold FusionClassifier._forward.
  destruct (average_loop _ _ _ _) as [r ests]. apply with_self_quiet.
Qed.

Lemma regressor_forward_quiet X :
  keeps quiet (FusionRegressor.forward (E := E) X).
Proof.
  intros rt. unfold FusionRegressor.forward.
  destruct (average_loop _ _ _ _) as [r ests]. apply with_self_quiet.
Qed.

Lemma classifier_forward_quiet X :
  keeps quiet (FusionClassifier.forward (E := E) X).
Proof.
  unfold FusionClassifier.forward.
  apply keeps_bind; [exact quiet_trans | apply classifier__forward_quiet |].
  intros p. apply keeps_ret, quiet_refl.
Qed.

(** X8.  The evaluation stage and the forward passes print nothing and
    construct no estimator, whatever their outcome: the console and the
    number of invocations of the estimator factory are the same before and
    after [predict], [forward] and [_forward]. *)
Theorem predict_is_quiet :
  (forall loader (rt : Runtime E),
      quiet rt (snd (FusionClassifier.predict loader rt))) /\
  (forall loader (rt : Runtime E),
      quiet rt (snd (FusionRegressor.predict loader rt))) /\
  (forall X (rt : Runtime E),
      quiet rt (snd (FusionClassifier._forward X rt)) /\
      quiet rt (snd (FusionClassifier.forward X rt)) /\
      quiet rt (snd (FusionRegressor.forward X rt))).
Proof.
  split; [| split].
  - intros loader. change (keeps quiet (FusionClassifier.predict loader)).
    unfold FusionClassifier.predict.
    apply keeps_bind; [exact quiet_trans | |].
    { apply keeps_modify. intros s. apply with_self_quiet. }
    intros _. apply keeps_bind; [exact quiet_trans | |].
    { apply keeps_for_each; [exact quiet_refl | exact quiet_trans |].
      intros b c. unfold FusionClassifier.predict_batch.
      apply keeps_bind;
        [exact quiet_trans | apply classifier_forward_quiet |].
      intros output. apply keeps_bind;
        [exact quiet_trans | apply keeps_lift, quiet_refl |].
      intros hits. apply keeps_ret, quiet_refl. }
    intros correct. destruct (length (dataset loader) =? 0)%nat;
      [apply keeps_raise | apply keeps_ret]; exact quiet_refl.
  - intros loader. change (keeps quiet (FusionRegressor.predict loader)).
    unfold FusionRegressor.predict.
    apply keeps_bind; [exact quiet_trans | |].
    { apply keeps_modify. intros s. apply with_self_quiet. }
    intros _. apply keeps_bind; [exact quiet_trans | |].
    { apply keeps_for_each; [exact quiet_refl | exact quiet_trans |].
      intros b c. unfold FusionRegressor.predict_batch.
      apply keeps_bind;
        [exact quiet_trans | apply regressor_forward_quiet |].
      intros output. apply keeps_bind;
        [exact quiet_trans | apply keeps_lift, quiet_refl |].
      intros loss. apply keeps_ret, quiet_refl. }
    intros mse. destruct (len loader =? 0)%nat;
      [apply keeps_raise | apply keeps_ret]; exact quiet_refl.
  - intros X rt. split; [| split].
    + apply classifier__forward_quiet.
    + apply classifier_forward_quiet.
    + apply regressor_forward_quiet.
Qed.

Lemma logged_refl P (rt : Runtime E) : logged P rt rt.
Proof. exists []. split; [now rewrite app_nil_r | constructor]. Qed.

Lemma logged_trans P (a b c : Runtime E) :
  logged P a b -> logged P b c -> logged P a c.
Proof.
  intros [l1 [H1 P1]] [l2 [H2 P2]]. exists (l1 ++ l2). split.
  - now rewrite H2, H1, app_assoc.
  - apply Forall_app. now split.
Qed.

Lemma quiet_logged P (a b : Runtime E) : quiet a b -> logged P a b.
Proof.
  intros [Hout _]. exists []. split;
    [now rewrite app_nil_r | constructor].
Qed.

Lemma logged_weaken (P Q : LogLine -> Prop) (a b : Runtime E) :
  (forall line, P line -> Q line) -> logged P a b -> logged Q a b.
Proof.
  intros HPQ [l [Hl HP]]. exists l. split; [exact Hl |].
  eapply Forall_impl; eassumption.
Qed.

Lemma print_logged (P : LogLine -> Prop) line :
  P line -> keeps (logged P) (print (E := E) line).
Proof.
  intros HP rt. exists [line]. split; [reflexivity | now constructor].
Qed.

End Console.

Lemma in_enumerate {A} (l : list A) i x :
  In (i, x) (enumerate l) -> nth_error l i = Some x.
Proof.
  unfold enumerate.
  assert (Hgen : forall s,
    In (i, x) (combine (seq s (length l)) l) ->
    (s <= i)%nat /\ nth_error l (i - s) = Some x).
  { induction l as [| y l IH]; intros s; simpl; [tauto |].
    intros [Heq | Hin].
    - injection Heq as <- <-. rewrite Nat.sub_diag. split; [lia | reflexivity].
    - destruct (IH (S s) Hin) as [Hle Hnth]. split; [lia |].
      replace (i - s)%nat with (S (i - S s)) by lia. exact Hnth. }
  intros Hin. destruct (Hgen 0%nat Hin) as [_ Hnth].
  now rewrite Nat.sub_0_r in Hnth.
Qed.

Lemma batch_of_iteration {X Y} (loader : DataLoader X Y) i data target :
  In (i, (data, target)) (enumerate (iter loader)) ->
  (i < len loader)%nat /\
  nth_error (batch_sizes loader) i = Some (length data) /\
  length target = length data.
Proof.
  intros Hin. apply in_enumerate in Hin. unfold iter in Hin.
  rewrite nth_error_map in Hin.
  destruct (nth_error (batches loader) i) as [batch |] eqn:Hnth;
    [| discriminate].
  simpl in Hin. injection Hin as <- <-.
  split; [| split].
  - unfold len. apply nth_error_Some. congruence.
  - unfold batch_sizes. rewrite nth_error_map, Hnth. simpl.
    now rewrite length_map.
  - now rewrite !length_map.
Qed.

Section FitConsole.

Context {E OC OR : Type} `{Estimator E}
        `{Optimizer E (list Z) OC} `{Optimizer E Tensor OR}.

Lemma classifier_fit_batch_logged epoch li (b : nat * (Tensor * list Z))
  (optimizer : OC) :
  keeps
    (logged (fun line =>
       log_epoch line = epoch /\ log_batch line = fst b /\
       reports li (fst b) = true /\
       exists correct,
         log_correct line = Some (correct, length (fst (snd b))) /\
         (correct <= length (snd (snd b)))%nat))
    (FusionClassifier.fit_batch (E := E) epoch li b optimizer).
Proof.
  set (P := fun line : LogLine => _).
  unfold FusionClassifier.fit_batch. cbv zeta.
  apply keeps_bind; [apply logged_trans | |].
  { intros s. apply quiet_logged, classifier__forward_quiet. }
  intros output.
  apply keeps_bind; [apply logged_trans | apply keeps_lift, logged_refl |].
  intros loss.
  apply keeps_bind; [apply logged_trans | apply keeps_get, logged_refl |].
  intros rt.
  apply keeps_bind; [apply logged_trans | |].
  { apply keeps_modify. intros s. apply quiet_logged, with_self_quiet. }
  intros _.
  apply keeps_bind; [apply logged_trans | | intros _; apply keeps_ret,
    logged_refl].
  intros s.
  destruct (li =? 0)%Z; [apply logged_refl |].
  destruct (Z.of_nat (fst b) mod li =? 0)%Z eqn:Hrep; [| apply logged_refl].
  unfold bind, lift.
  destruct (count_correct output (snd (snd b))) as [correct | e] eqn:Hc;
    [| apply logged_refl].
  exists [mkLogLine epoch (fst b) loss
            (Some (correct, length (fst (snd b))))].
  split; [reflexivity |]. constructor; [| constructor].
  unfold P. simpl. repeat split; try assumption.
  exists correct. split; [reflexivity |].
  now apply count_correct_le with (output := output).
Qed.

Lemma regressor_fit_batch_logged epoch li (b : nat * (Tensor * Tensor))
  (optimizer : OR) :
  keeps
    (logged (fun line =>
       log_epoch line = epoch /\ log_batch line = fst b /\
       reports li (fst b) = true /\ log_correct line = None))
    (FusionRegressor.fit_batch (E := E) epoch li b optimizer).
Proof.
  set (P := fun line : LogLine => _).
  unfold FusionRegressor.fit_batch. cbv zeta.
  apply keeps_bind; [apply logged_trans | |].
  { intros s. apply quiet_logged, regressor_forward_quiet. }
  intros output.
  apply keeps_bind; [apply logged_trans | apply keeps_lift, logged_refl |].
  intros loss.
  apply keeps_bind; [apply logged_trans | apply keeps_get, logged_refl |].
  intros rt.
  apply keeps_bind; [apply logged_trans | |].
  { apply keeps_modify. intros s. apply quiet_logged, with_self_quiet. }
  intros _.
  apply keeps_bind; [apply logged_trans | | intros _; apply keeps_ret,
    logged_refl].
  intros s.
  destruct (li =? 0)%Z; [apply logged_refl |].
  destruct (Z.of_nat (fst b) mod li =? 0)%Z eqn:Hrep; [| apply logged_refl].
  exists [mkLogLine epoch (fst b) loss None].
  split; [reflexivity |]. constructor; [| constructor].
  unfold P. simpl. repeat split; assumption.
Qed.

Lemma validate_logged P lr wd epochs li :
  keeps (logged P) (_validate_parameters (E := E) lr wd epochs li).
Proof.
  intros s. unfold _validate_parameters.
  destruct (Rlt_dec 0 lr); [| apply logged_refl].
  destruct (Rle_dec 0 wd); [| apply logged_refl].
  destruct (0 <? epochs)%Z; [| apply logged_refl].
  destruct (0 <? li)%Z; apply logged_refl.
Qed.

Lemma classifier_epochs_logged loader epochs li (optimizer : OC) :
  keeps (logged (classifier_line loader epochs li))
        (classifier_epochs (E := E) loader epochs li optimizer).
Proof.
  unfold classifier_epochs.
  apply keeps_for_each_in; [apply logged_refl | apply logged_trans |].
  intros epoch o Hepoch. apply in_seq in Hepoch.
  apply keeps_for_each_in; [apply logged_refl | apply logged_trans |].
  intros [i [data target]] o' Hb.
  destruct (batch_of_iteration loader i data target Hb)
    as [Hi [Hsize Htarget]].
  intros s. eapply logged_weaken;
    [| apply (classifier_fit_batch_logged epoch li (i, (data, target)) o')].
  simpl. intros line [He [Hbatch [Hrep [correct [Hc Hle]]]]].
  unfold classifier_line. rewrite He, Hbatch.
  split; [lia |]. split; [exact Hrep |].
  exists correct, (length data). repeat split; try assumption. lia.
Qed.

Lemma regressor_epochs_logged loader epochs li (optimizer : OR) :
  keeps (logged (regressor_line loader epochs li))
        (regressor_epochs (E := E) loader epochs li optimizer).
Proof.
  unfold regressor_epochs.
  apply keeps_for_each_in; [apply logged_refl | apply logged_trans |].
  intros epoch o Hepoch. apply in_seq in Hepoch.
  apply keeps_for_each_in; [apply logged_refl | apply logged_trans |].
  intros [i [data target]] o' Hb.
  destruct (batch_of_iteration loader i data target Hb) as [Hi _].
  intros s. eapply logged_weaken;
    [| apply (regressor_fit_batch_logged epoch li (i, (data, target)) o')].
  simpl. intros line [He [Hbatch [Hrep Hnone]]].
  unfold regressor_line. rewrite He, Hbatch.
  repeat split; try assumption; lia.
Qed.

Variable base_estimator : nat -> E.
Variable decide_classes : DataLoader (list R) Z -> bool -> res nat.
Variable decide_width : DataLoader (list R) (list R) -> bool -> res nat.

Let classifier_fit :=
  FusionClassifier.fit (O := OC) base_estimator decide_classes.
Let regressor_fit :=
  FusionRegressor.fit (O := OR) base_estimator decide_width.

Lemma logged_from P (a b c : Runtime E) :
  stdout b = stdout a -> logged P b c -> logged P a c.
Proof. intros Hout [l [Hl HP]]. exists l. now rewrite <- Hout. Qed.

(** X9.  Whatever its outcome, [fit] only appends status lines to the
    console, and every line it appends is of an epoch below [epochs] and of
    a batch index that is a multiple of [log_interval]; a line of the
    classifier carries the size of the batch of that index and a count of
    correct predictions that does not exceed it, a line of the regressor
    carries no count. *)
Theorem fit_prints_only_at_the_interval :
  (forall loader lr wd epochs kind li (rt : Runtime E),
      logged (classifier_line loader epochs li) rt
        (snd (classifier_fit loader lr wd epochs kind li rt))) /\
  (forall loader lr wd epochs kind li (rt : Runtime E),
      logged (regressor_line loader epochs li) rt
        (snd (regressor_fit loader lr wd epochs kind li rt))).
Proof.
  split.
  - intros loader lr wd epochs kind li rt.
    unfold classifier_fit.
    rewrite (classifier_fit_until_inference base_estimator decide_classes).
    destruct (decide_classes loader true) as [n | e];
      [| simpl; eapply logged_from; [| apply logged_refl]; reflexivity].
    destruct (set_optimizer _ kind lr wd) as [opt | e];
      [| simpl; eapply logged_from; [| apply logged_refl]; reflexivity].
    apply logged_from with (b := prepared base_estimator n rt);
      [reflexivity |].
    generalize (prepared base_estimator n rt).
    apply keeps_bind; [apply logged_trans | apply validate_logged |].
    intros _. apply keeps_bind;
      [apply logged_trans | apply classifier_epochs_logged |].
    intros _. apply keeps_ret, logged_refl.
  - intros loader lr wd epochs kind li rt.
    unfold regressor_fit.
    rewrite (regressor_fit_until_inference base_estimator decide_width).
    destruct (decide_width loader false) as [n | e];
      [| simpl; eapply logged_from; [| apply logged_refl]; reflexivity].
    destruct (set_optimizer _ kind lr wd) as [opt | e];
      [| simpl; eapply logged_from; [| apply logged_refl]; reflexivity].
    apply logged_from with (b := prepared base_estimator n rt);
      [reflexivity |].
    generalize (prepared base_estimator n rt).
    apply keeps_bind; [apply logged_trans | apply validate_logged |].
    intros _. apply keeps_bind;
      [apply logged_trans | apply regressor_epochs_logged |].
    intros _. apply keeps_ret, logged_refl.
Qed.

End FitConsole.

(** ** The status lines of a run that succeeds *)

Lemma for_each_trace {S A B T} (tr : S -> list T) (g : A -> list T)
  (xs : list A) (body : A -> B -> M S B) :
  (forall x acc s acc' s',
      In x xs -> body x acc s = (Ok acc', s') -> tr s' = tr s ++ g x) ->
  forall acc s acc' s',
    for_each xs body acc s = (Ok acc', s') ->
    tr s' = tr s ++ flat_map g xs.
Proof.
  induction xs as [| x xs IH]; intros Hbody acc s acc' s' Hrun; simpl in *.
  - unfold ret in Hrun. injection Hrun as _ <-. now rewrite app_nil_r.
  - unfold bind in Hrun.
    destruct (body x acc s) as [[acc1 | e] s1] eqn:Hx; [| discriminate].
    rewrite (IH (fun y a t a' t' Hy => Hbody y a t a' t' (or_intror Hy))
                acc1 s1 acc' s' Hrun).
    rewrite (Hbody x acc s acc1 s1 (or_introl eq_refl) Hx).
    now rewrite app_assoc.
Qed.

Lemma flat_map_enumerate {A T} (f : nat -> list T) (l : list A) :
  flat_map (fun b : nat * A => f (fst b)) (enumerate l)
  = flat_map f (seq 0 (length l)).
Proof.
  unfold enumerate. generalize 0%nat.
  induction l as [| x l IH]; intros s; simpl; [reflexivity |].
  now rewrite IH.
Qed.

Lemma flat_map_filter {T} (p : nat -> bool) (f : nat -> T) (l : list nat) :
  flat_map (fun i => if p i then [f i] else []) l = map f (filter p l).
Proof.
  induction l as [| i l IH]; simpl; [reflexivity |].
  destruct (p i); simpl; now rewrite IH.
Qed.

Lemma validate_cases {E} lr wd epochs li (rt : Runtime E) :
  (valid_parameters lr wd epochs li /\
   _validate_parameters lr wd epochs li rt = (Ok tt, rt)) \/
  (~ valid_parameters lr wd epochs li /\
   _validate_parameters lr wd epochs li rt = (Err ValueError, rt)).
Proof.
  unfold _validate_parameters, valid_parameters.
  destruct (Rlt_dec 0 lr) as [Hlr |]; [| right; split; [tauto | reflexivity]].
  destruct (Rle_dec 0 wd) as [Hwd |]; [| right; split; [tauto | reflexivity]].
  destruct (0 <? epochs)%Z eqn:Hep.
  2: { right. split; [| reflexivity]. apply Z.ltb_ge in Hep. lia. }
  destruct (0 <? li)%Z eqn:Hli.
  2: { right. split; [| reflexivity]. apply Z.ltb_ge in Hli. lia. }
  left. apply Z.ltb_lt in Hep, Hli. repeat split; assumption.
Qed.

Section FitTrace.

Context {E OC OR : Type} `{Estimator E}
        `{Optimizer E (list Z) OC} `{Optimizer E Tensor OR}.

Let keys (rt : Runtime E) : list (nat * nat) := map log_key (stdout rt).

Lemma classifier_fit_batch_trace epoch li (b : nat * (Tensor * list Z))
  (o o' : OC) (s s' : Runtime E) :
  FusionClassifier.fit_batch epoch li b o s = (Ok o', s') ->
  keys s' = keys s ++ (if reports li (fst b) then [(epoch, fst b)] else []).
Proof.
  unfold FusionClassifier.fit_batch. cbv zeta.
  unfold bind, lift, get, modify, raise, ret, print, keys, reports.
  pose proof (classifier__forward_quiet (fst (snd b)) s) as [Hq _].
  destruct (FusionClassifier._forward (fst (snd b)) s) as [[output | e] s1];
    [| discriminate].
  simpl in Hq.
  destruct (cross_entropy output (snd (snd b))) as [loss | e];
    [| discriminate].
  destruct (li =? 0)%Z; [discriminate |].
  destruct (Z.of_nat (fst b) mod li =? 0)%Z.
  - destruct (count_correct output (snd (snd b))) as [correct | e];
      [| discriminate].
    intros Hrun. injection Hrun as _ <-. simpl.
    now rewrite map_app, Hq.
  - intros Hrun. injection Hrun as _ <-. simpl. now rewrite app_nil_r, Hq.
Qed.

Lemma regressor_fit_batch_trace epoch li (b : nat * (Tensor * Tensor))
  (o o' : OR) (s s' : Runtime E) :
  FusionRegressor.fit_batch epoch li b o s = (Ok o', s') ->
  keys s' = keys s ++ (if reports li (fst b) then [(epoch, fst b)] else []).
Proof.
  unfold FusionRegressor.fit_batch. cbv zeta.
  unfold bind, lift, get, modify, raise, ret, print, keys, reports.
  pose proof (regressor_forward_quiet (fst (snd b)) s) as [Hq _].
  destruct (FusionRegressor.forward (fst (snd b)) s) as [[output | e] s1];
    [| discriminate].
  simpl in Hq.
  destruct (mse_loss output (snd (snd b))) as [loss | e]; [| discriminate].
  destruct (li =? 0)%Z; [discriminate |].
  destruct (Z.of_nat (fst b) mod li =? 0)%Z.
  - intros Hrun. injection Hrun as _ <-. simpl. now rewrite map_app, Hq.
  - intros Hrun. injection Hrun as _ <-. simpl. now rewrite app_nil_r, Hq.
Qed.

Lemma classifier_epochs_trace loader epochs li (o o' : OC)
  (s s' : Runtime E) :
  classifier_epochs loader epochs li o s = (Ok o', s') ->
  keys s' = keys s ++ report_keys epochs (len loader) li.
Proof.
  unfold classifier_epochs, report_keys. apply for_each_trace.
  intros epoch acc t acc' t' _ Hepoch.
  rewrite (@for_each_trace _ _ _ _ keys
             (fun b : nat * (Tensor * list Z) =>
                if reports li (fst b) then [(epoch, fst b)] else [])
             (enumerate (iter loader)) _
             (fun b a u a' u' _ Hb =>
                @classifier_fit_batch_trace epoch li b a a' u u' Hb)
             acc t acc' t' Hepoch).
  f_equal.
  rewrite (flat_map_enumerate
             (fun i => if reports li i then [(epoch, i)] else [])).
  rewrite flat_map_filter. unfold iter, len. now rewrite length_map.
Qed.

Lemma regressor_epochs_trace loader epochs li (o o' : OR)
  (s s' : Runtime E) :
  regressor_epochs loader epochs li o s = (Ok o', s') ->
  keys s' = keys s ++ report_keys epochs (len loader) li.
Proof.
  unfold regressor_epochs, report_keys. apply for_each_trace.
  intros epoch acc t acc' t' _ Hepoch.
  rewrite (@for_each_trace _ _ _ _ keys
             (fun b : nat * (Tensor * Tensor) =>
                if reports li (fst b) then [(epoch, fst b)] else [])
             (enumerate (iter loader)) _
             (fun b a u a' u' _ Hb =>
                @regressor_fit_batch_trace epoch li b a a' u u' Hb)
             acc t acc' t' Hepoch).
  f_equal.
  rewrite (flat_map_enumerate
             (fun i => if reports li i then [(epoch, i)] else [])).
  rewrite flat_map_filter. unfold iter, len. now rewrite length_map.
Qed.

End FitTrace.

Section SuccessfulFit.

Context {E OC OR : Type} `{Estimator E}
        `{Optimizer E (list Z) OC} `{Optimizer E Tensor OR}.

Variable base_estimator : nat -> E.
Variable decide_classes : DataLoader (list R) Z -> bool -> res nat.
Variable decide_width : DataLoader (list R) (list R) -> bool -> res nat.

Let classifier_fit :=
  FusionClassifier.fit (O := OC) base_estimator decide_classes.
Let regressor_fit :=
  FusionRegressor.fit (O := OR) base_estimator decide_width.

Lemma lines_of_keys (a b : Runtime E) ks :
  map log_key (stdout b) = map log_key (stdout a) ++ ks ->
  (exists lines, stdout b = stdout a ++ lines) ->
  exists lines, stdout b = stdout a ++ lines /\ map log_key lines = ks.
Proof.
  intros Hkeys [lines Hlines]. exists lines. split; [exact Hlines |].
  rewrite Hlines, map_app in Hkeys. now apply app_inv_head in Hkeys.
Qed.

(** X10.  When [fit] returns normally, the hyper-parameters were accepted
    and the console has received exactly one status line for every epoch
    and every batch index that is a multiple of [log_interval], batch 0
    included, in the order of the epochs and, within an epoch, of the
    batches. *)
Theorem successful_fit_prints_every_interval :
  (forall loader lr wd epochs kind li (rt : Runtime E),
      fst (classifier_fit loader lr wd epochs kind li rt) = Ok tt ->
      valid_parameters lr wd epochs li /\
      exists lines,
        stdout (snd (classifier_fit loader lr wd epochs kind li rt))
        = stdout rt ++ lines /\
        map log_key lines = report_keys epochs (len loader) li) /\
  (forall loader lr wd epochs kind li (rt : Runtime E),
      fst (regressor_fit loader lr wd epochs kind li rt) = Ok tt ->
      valid_parameters lr wd epochs li /\
      exists lines,
        stdout (snd (regressor_fit loader lr wd epochs kind li rt))
        = stdout rt ++ lines /\
        map log_key lines = report_keys epochs (len loader) li).
Proof.
  split.
  - intros loader lr wd epochs kind li rt.
    unfold classifier_fit.
    rewrite (classifier_fit_until_inference base_estimator decide_classes).
    destruct (decide_classes loader true) as [n | e]; [| discriminate].
    destruct (set_optimizer _ kind lr wd) as [opt | e]; [| discriminate].
    unfold bind at 1 3.
    destruct (validate_cases lr wd epochs li (prepared base_estimator n rt))
      as [[Hvalid ->] | [_ ->]]; [| discriminate].
    unfold bind.
    pose proof (classifier_epochs_logged loader epochs li opt
                  (prepared base_estimator n rt)) as [lines [Hlines _]].
    destruct (classifier_epochs loader epochs li opt
                (prepared base_estimator n rt)) as [[o | e] s'] eqn:Hloop;
      [| discriminate].
    intros _. split; [exact Hvalid |]. simpl in *.
    apply (lines_of_keys (prepared base_estimator n rt) s').
    + eapply classifier_epochs_trace. exact Hloop.
    + now exists lines.
  - intros loader lr wd epochs kind li rt.
    unfold regressor_fit.
    rewrite (regressor_fit_until_inference base_estimator decide_width).
    destruct (decide_width loader false) as [n | e]; [| discriminate].
    destruct (set_optimizer _ kind lr wd) as [opt | e]; [| discriminate].
    unfold bind at 1 3.
    destruct (validate_cases lr wd epochs li (prepared base_estimator n rt))
      as [[Hvalid ->] | [_ ->]]; [| discriminate].
    unfold bind.
    pose proof (regressor_epochs_logged loader epochs li opt
                  (prepared base_estimator n rt)) as [lines [Hlines _]].
    destruct (regressor_epochs loader epochs li opt
                (prepared base_estimator n rt)) as [[o | e] s'] eqn:Hloop;
      [| discriminate].
    intros _. split; [exact Hvalid |]. simpl in *.
    apply (lines_of_keys (prepared base_estimator n rt) s').
    + eapply regressor_epochs_trace. exact Hloop.
    + now exists lines.
Qed.

End SuccessfulFit.

(** * Further properties of the evaluation stage *)


Section PredictExtremes.

Context {E : Type} `{EvalMode E}.


End PredictExtremes.

(** ** What [fit] leaves once training has been reached *)

Section FitLeaves.

Context {E OC OR : Type} `{Estimator E}
        `{Optimizer E (list Z) OC} `{Optimizer E Tensor OR}.

Variable base_estimator : nat -> E.
Variable decide_classes : DataLoader (list R) Z -> bool -> res nat.
Variable decide_width : DataLoader (list R) (list R) -> bool -> res nat.

(** X13.  Once the inference of the width and [set_optimizer] have
    succeeded, [fit] leaves the ensemble in train mode, with [n_outputs]
    equal to the inferred width and exactly [n_estimators] estimators more
    than before, whether it then returns normally, rejects the
    hyper-parameters or is aborted by a failing batch in any epoch. *)
Theorem fit_leaves_width_and_train_mode
  loader_c loader_r lr wd epochs kind li (rt : Runtime E) nc nr oc or :
  decide_classes loader_c true = Ok nc ->
  set_optimizer (O := OC) (self (inferred base_estimator nc rt)) kind lr wd
  = Ok oc ->
  decide_width loader_r false = Ok nr ->
  set_optimizer (O := OR) (self (inferred base_estimator nr rt)) kind lr wd
  = Ok or ->
  let c :=
    snd (FusionClassifier.fit (O := OC) base_estimator decide_classes
           loader_c lr wd epochs kind li rt) in
  let r :=
    snd (FusionRegressor.fit (O := OR) base_estimator decide_width
           loader_r lr wd epochs kind li rt) in
  (training (self c) = true /\ n_outputs (self c) = nc /\
   length (estimators_ (self c))
   = (length (estimators_ (self rt)) + n_estimators (self rt))%nat) /\
  (training (self r) = true /\ n_outputs (self r) = nr /\
   length (estimators_ (self r))
   = (length (estimators_ (self rt)) + n_estimators (self rt))%nat).
Proof.
  intros Hnc Hoc Hnr Hor c r.
  destruct (classifier_fit_trains base_estimator decide_classes
              loader_c lr wd epochs kind li rt Hnc Hoc)
    as [[_ [Hlc _]] [Hwc Hmc]].
  destruct (regressor_fit_trains base_estimator decide_width
              loader_r lr wd epochs kind li rt Hnr Hor)
    as [[_ [Hlr _]] [Hwr Hmr]].
  fold c in Hlc, Hwc, Hmc. fold r in Hlr, Hwr, Hmr.
  simpl in Hlc, Hwc, Hmc, Hlr, Hwr, Hmr.
  rewrite length_map, length_app, length_map, length_seq in Hlc, Hlr.
  repeat split; assumption.
Qed.

End FitLeaves.

(** * The further properties at the scenarios *)

Import MoreRuns.
Import Picky.

Lemma forward_without_estimators_witness :
  let rt := unfitted in
  let X := [[5]; [7]] in
  estimators_ (self rt) = [] /\
  (0 < n_outputs (self rt))%nat /\
  FusionClassifier._forward X rt = (Ok (zeros 2 2), rt) /\
  FusionRegressor.forward X rt = (Ok (zeros 2 2), rt) /\
  FusionClassifier.forward X rt = (Ok (uniform 2 2), rt).
Proof.
  intros rt X.
  assert (H1 : estimators_ (self rt) = []) by reflexivity.
  assert (H2 : (0 < n_outputs (self rt))%nat) by (simpl; lia).
  destruct (@forward_without_estimators _ _ rt X H1) as [Hc [Hr Hs]].
  exact (conj H1 (conj H2 (conj Hc (conj Hr (Hs H2))))).
Defined.

Lemma forward_stops_at_raising_estimator_witness :
  let rt := Picky.mixed_widths in
  let X := [[5]; [7]] in
  let before := [Picky.mkPicky 1 [1; 0] true] in
  let e := Picky.mkPicky 2 [0; 1] true in
  let after := [Picky.mkPicky 1 [1; 0] true] in
  let outs := [[[1; 0]; [1; 0]]] in
  estimators_ (self rt) = before ++ e :: after /\
  map (fun e0 => fst (call e0 X)) before = map Ok outs /\
  Forall (has_shape (length X) (n_outputs (self rt))) outs /\
  fst (call e X) = Err EstimatorError /\
  FusionClassifier._forward X rt = (Err EstimatorError, rt) /\
  FusionClassifier.forward X rt = (Err EstimatorError, rt) /\
  FusionRegressor.forward X rt = (Err EstimatorError, rt).
Proof.
  intros rt X before e after outs.
  assert (H1 : estimators_ (self rt) = before ++ e :: after) by reflexivity.
  assert (H2 : map (fun e0 => fst (call e0 X)) before = map Ok outs)
    by reflexivity.
  assert (H3 : Forall (has_shape (length X) (n_outputs (self rt))) outs)
    by repeat constructor.
  assert (H4 : fst (call e X) = Err EstimatorError) by reflexivity.
  exact (conj H1 (conj H2 (conj H3 (conj H4
           (@forward_stops_at_raising_estimator _ _ rt X before e after outs
              EstimatorError H1 H2 H3 H4))))).
Defined.

Lemma forward_rejects_misshapen_output_witness :
  let rt := one_too_wide in
  let X := [[5]; [7]] in
  let before := [mkConst [1; 0] true] in
  let e := mkConst [1; 0; 0] true in
  let after := [mkConst [1; 0] true] in
  let outs := [[[1; 0]; [1; 0]]] in
  let o := [[1; 0; 0]; [1; 0; 0]] in
  estimators_ (self rt) = before ++ e :: after /\
  map (fun e0 => fst (call e0 X)) before = map Ok outs /\
  Forall (has_shape (length X) (n_outputs (self rt))) outs /\
  fst (call e X) = Ok o /\
  ((length o <> 1%nat /\ length o <> length X) \/
   (exists row, In row o /\
                length row <> 1%nat /\ length row <> n_outputs (self rt))) /\
  FusionClassifier._forward X rt = (Err ShapeMismatch, rt) /\
  FusionClassifier.forward X rt = (Err ShapeMismatch, rt) /\
  FusionRegressor.forward X rt = (Err ShapeMismatch, rt).
Proof.
  intros rt X before e after outs o.
  assert (H1 : estimators_ (self rt) = before ++ e :: after) by reflexivity.
  assert (H2 : map (fun e0 => fst (call e0 X)) before = map Ok outs)
    by reflexivity.
  assert (H3 : Forall (has_shape (length X) (n_outputs (self rt))) outs)
    by repeat constructor.
  assert (H4 : fst (call e X) = Ok o) by reflexivity.
  assert (H5 : (length o <> 1%nat /\ length o <> length X) \/
               (exists row, In row o /\
                  length row <> 1%nat /\
                  length row <> n_outputs (self rt))).
  { right. exists [1; 0; 0]. split; [now left |]. split; discriminate. }
  exact (conj H1 (conj H2 (conj H3 (conj H4 (conj H5
           (@forward_rejects_misshapen_output _ _ rt X before e after outs o
              H1 H2 H3 H4 H5)))))).
Defined.

Lemma forward_scales_with_surplus_estimators_witness :
  let rt := fitted_twice in
  let X := [[5]; [7]] in
  let outs := [[[2]; [2]]; [[4]; [4]]] in
  (1 <= n_estimators (self rt))%nat /\
  (1 <= 2)%nat /\
  length (estimators_ (self rt)) = (2 * n_estimators (self rt))%nat /\
  map (fun e => fst (call e X)) (estimators_ (self rt)) = map Ok outs /\
  Forall (has_shape (length X) (n_outputs (self rt))) outs /\
  exists P,
    fst (FusionClassifier._forward X rt) = Ok P /\
    fst (FusionRegressor.forward X rt) = Ok P /\
    forall r c,
      entry P r c
      = INR 2 * (rsum (map (fun o => entry o r c) outs) / INR (length outs)).
Proof.
  intros rt X outs.
  assert (H1 : (1 <= n_estimators (self rt))%nat) by (simpl; lia).
  assert (H2 : (1 <= 2)%nat) by lia.
  assert (H3 : length (estimators_ (self rt))
               = (2 * n_estimators (self rt))%nat) by reflexivity.
  assert (H4 : map (fun e => fst (call e X)) (estimators_ (self rt))
               = map Ok outs) by reflexivity.
  assert (H5 : Forall (has_shape (length X) (n_outputs (self rt))) outs)
    by repeat constructor.
  exact (conj H1 (conj H2 (conj H3 (conj H4 (conj H5
           (@forward_scales_with_surplus_estimators _ _ rt X outs 2
              H1 H2 H3 H4 H5)))))).
Defined.

Lemma fit_raises_what_its_collaborators_raise_witness :
  let rt := fresh_runtime (init 3 "cpu") in
  FusionClassifier.fit (O := unit) (constant_factory [1; 0]) no_inference
    (class_loader 0 false) (1 / 1000) (5 / 10000) 100 "Adam" 100 rt
  = (Err IndexError, constructed (constant_factory [1; 0]) 3 rt) /\
  classifier_fit_of [1; 0] 2 (class_loader 0 false)
    (1 / 1000) (5 / 10000) 100 "LBFGS" 100 rt
  = (Err NotImplementedError, inferred (constant_factory [1; 0]) 2 rt) /\
  regressor_fit_of [3] 1 (value_loader 3)
    (1 / 1000) (5 / 10000) 100 "LBFGS" 100 rt
  = (Err NotImplementedError, inferred (constant_factory [3]) 1 rt).
Proof.
  intros rt.
  destruct (@fit_raises_what_its_collaborators_raise
              ConstEstimator unit unit _ _ _
              (constant_factory [1; 0]) no_inference no_inference)
    as [Hdecide _].
  destruct (@fit_raises_what_its_collaborators_raise
              ConstEstimator unit unit _ _ _
              (constant_factory [1; 0]) (fixed_outputs 2) (fixed_outputs 1))
    as [_ [Hkind _]].
  destruct (@fit_raises_what_its_collaborators_raise
              ConstEstimator unit unit _ _ _
              (constant_factory [3]) (fixed_outputs 2) (fixed_outputs 1))
    as [_ [_ [_ Hkind']]].
  split; [| split].
  - exact (Hdecide (class_loader 0 false) (1 / 1000) (5 / 10000) 100%Z
             "Adam"%string 100%Z rt IndexError eq_refl).
  - exact (Hkind (class_loader 0 false) (1 / 1000) (5 / 10000) 100%Z
             "LBFGS"%string 100%Z rt 2%nat NotImplementedError
             eq_refl eq_refl).
  - exact (Hkind' (value_loader 3) (1 / 1000) (5 / 10000) 100%Z
             "LBFGS"%string 100%Z rt 1%nat NotImplementedError
             eq_refl eq_refl).
Defined.

Lemma fit_rejects_after_preparing_witness :
  let rt := fresh_runtime (init 3 "cpu") in
  ~ valid_parameters 0 (5 / 10000) 100 100 /\
  classifier_fit_of [1; 0] 2 (class_loader 0 false)
    0 (5 / 10000) 100 "Adam" 100 rt
  = (Err ValueError, prepared (constant_factory [1; 0]) 2 rt) /\
  regressor_fit_of [1; 0] 1 (value_loader 3)
    0 (5 / 10000) 100 "Adam" 100 rt
  = (Err ValueError, prepared (constant_factory [1; 0]) 1 rt).
Proof.
  intros rt.
  assert (Hbad : ~ valid_parameters 0 (5 / 10000) 100 100).
  { intros [Hlr _]. lra. }
  pose proof (@fit_rejects_after_preparing ConstEstimator unit unit _ _ _
                (constant_factory [1; 0]) (fixed_outputs 2) (fixed_outputs 1)
                (class_loader 0 false) (value_loader 3)
                0 (5 / 10000) 100%Z "Adam"%string 100%Z rt 2%nat 1%nat tt tt
                Hbad) as Hrun.
  destruct (Hrun eq_refl eq_refl eq_refl eq_refl) as [Hc [Hr _]].
  exact (conj Hbad (conj Hc Hr)).
Defined.

Lemma fit_over_no_batch_witness :
  let rt := fresh_runtime (init 3 "cpu") in
  valid_parameters (1 / 1000) (5 / 10000) 100 100 /\
  len (no_example (Y := Z)) = 0%nat /\
  len (no_example (Y := list R)) = 0%nat /\
  classifier_fit_of [1; 0] 2 no_example
    (1 / 1000) (5 / 10000) 100 "Adam" 100 rt
  = (Ok tt, prepared (constant_factory [1; 0]) 2 rt) /\
  regressor_fit_of [1; 0] 1 no_example
    (1 / 1000) (5 / 10000) 100 "Adam" 100 rt
  = (Ok tt, prepared (constant_factory [1; 0]) 1 rt).
Proof.
  intros rt.
  assert (Hvalid : valid_parameters (1 / 1000) (5 / 10000) 100 100).
  { repeat split; try lra; lia. }
  pose proof (@fit_over_no_batch ConstEstimator unit unit _ _ _
                (constant_factory [1; 0]) (fixed_outputs 2) (fixed_outputs 1)
                no_example no_example
                (1 / 1000) (5 / 10000) 100%Z "Adam"%string 100%Z rt
                2%nat 1%nat tt tt Hvalid) as Hrun.
  exact (conj Hvalid (conj eq_refl (conj eq_refl
           (Hrun eq_refl eq_refl eq_refl eq_refl eq_refl eq_refl)))).
Defined.

(** A run of two epochs over two batches with a logging interval of two:
    both [fit] methods return normally. *)
Lemma short_runs_succeed :
  let rt := fresh_runtime (init 3 "cpu") in
  fst (classifier_fit_of [1; 0] 2 (class_loader 1 false)
         (1 / 1000) (5 / 10000) 2 "Adam" 2 rt) = Ok tt /\
  fst (regressor_fit_of [3] 1 (value_loader 5)
         (1 / 1000) (5 / 10000) 2 "Adam" 2 rt) = Ok tt.
Proof.
  intros rt.
  assert (Hvalid : valid_parameters (1 / 1000) (5 / 10000) 2 2).
  { repeat split; try lra; lia. }
  split.
  - unfold classifier_fit_of.
    rewrite classifier_fit_until_inference.
    change (fixed_outputs 2 (class_loader 1 false) true) with (Ok 2%nat).
    cbv iota beta.
    change (set_optimizer (O := unit)
              (self (inferred (constant_factory [1; 0]) 2 rt))
              "Adam" (1 / 1000) (5 / 10000))
      with (@Ok unit tt).
    cbv iota beta. unfold bind at 1.
    rewrite validate_accepts by exact Hvalid.
    unfold bind.
    assert (Hloop :
      fst (classifier_epochs (O := unit) (class_loader 1 false) 2 2 tt
             (prepared (constant_factory [1; 0]) 2 rt)) = Ok tt)
      by (vm_compute; reflexivity).
    destruct (classifier_epochs (class_loader 1 false) 2 2 tt
                (prepared (constant_factory [1; 0]) 2 rt)) as [r s].
    simpl in Hloop. subst r. reflexivity.
  - unfold regressor_fit_of.
    rewrite regressor_fit_until_inference.
    change (fixed_outputs 1 (value_loader 5) false) with (Ok 1%nat).
    cbv iota beta.
    change (set_optimizer (O := unit)
              (self (inferred (constant_factory [3]) 1 rt))
              "Adam" (1 / 1000) (5 / 10000))
      with (@Ok unit tt).
    cbv iota beta. unfold bind at 1.
    rewrite validate_accepts by exact Hvalid.
    unfold bind.
    assert (Hloop :
      fst (regressor_epochs (O := unit) (value_loader 5) 2 2 tt
             (prepared (constant_factory [3]) 1 rt)) = Ok tt)
      by (vm_compute; reflexivity).
    destruct (regressor_epochs (value_loader 5) 2 2 tt
                (prepared (constant_factory [3]) 1 rt)) as [r s].
    simpl in Hloop. subst r. reflexivity.
Qed.

Lemma successful_fit_prints_every_interval_witness :
  let rt := fresh_runtime (init 3 "cpu") in
  let c :=
    classifier_fit_of [1; 0] 2 (class_loader 1 false)
      (1 / 1000) (5 / 10000) 2 "Adam" 2 rt in
  let r :=
    regressor_fit_of [3] 1 (value_loader 5)
      (1 / 1000) (5 / 10000) 2 "Adam" 2 rt in
  fst c = Ok tt /\ fst r = Ok tt /\
  (exists lines,
      stdout (snd c) = stdout rt ++ lines /\
      map log_key lines = report_keys 2 (len (class_loader 1 false)) 2) /\
  (exists lines,
      stdout (snd r) = stdout rt ++ lines /\
      map log_key lines = report_keys 2 (len (value_loader 5)) 2).
Proof.
  intros rt c r.
  destruct short_runs_succeed as [Hc Hr]. fold rt in Hc, Hr.
  destruct (@successful_fit_prints_every_interval
              ConstEstimator unit unit _ _ _
              (constant_factory [1; 0]) (fixed_outputs 2) (fixed_outputs 1))
    as [Hclass _].
  destruct (@successful_fit_prints_every_interval
              ConstEstimator unit unit _ _ _
              (constant_factory [3]) (fixed_outputs 2) (fixed_outputs 1))
    as [_ Hreg].
  split; [exact Hc |]. split; [exact Hr |]. split.
  - exact (proj2 (Hclass (class_loader 1 false) (1 / 1000) (5 / 10000) 2%Z
                    "Adam"%string 2%Z rt Hc)).
  - exact (proj2 (Hreg (value_loader 5) (1 / 1000) (5 / 10000) 2%Z
                    "Adam"%string 2%Z rt Hr)).
Defined.


Lemma fit_leaves_width_and_train_mode_witness :
  let rt := evaluating (fresh_runtime (init 3 "cpu")) in
  let c :=
    snd (classifier_fit_of [1; 0] 2 (class_loader 1 false)
           (1 / 1000) (5 / 10000) 2 "Adam" 2 rt) in
  let r :=
    snd (regressor_fit_of [1; 0] 1 (value_loader 5)
           (1 / 1000) (5 / 10000) 2 "Adam" 2 rt) in
  training (self rt) = false /\
  (training (self c) = true /\ n_outputs (self c) = 2%nat /\
   length (estimators_ (self c)) = 3%nat) /\
  (training (self r) = true /\ n_outputs (self r) = 1%nat /\
   length (estimators_ (self r)) = 3%nat).
Proof.
  intros rt c r.
  pose proof (@fit_leaves_width_and_train_mode ConstEstimator unit unit _ _ _
                (constant_factory [1; 0]) (fixed_outputs 2) (fixed_outputs 1)
                (class_loader 1 false) (value_loader 5)
                (1 / 1000) (5 / 10000) 2%Z "Adam"%string 2%Z rt
                2%nat 1%nat tt tt) as Hrun.
  exact (conj eq_refl (Hrun eq_refl eq_refl eq_refl eq_refl)).
Defined.
